(** * Travel planner: currency parsing, budget summary and generation workflow

    A shallow embedding of [AppComponent] (the component that follows
    [GeminiService] in [src/services/gemini.service.ts]) and the
    properties its specification states about it.

    - JavaScript numbers are IEEE 754 binary64 values: [spec_float] with
      the operations of [SpecFloat] at precision 53.
    - Strings are [string]; a character is a code unit below 256.  No
      character above that range is a digit, a comma, a period or an
      ASCII letter, so such characters behave like any other character
      the parser drops.  The query of the search link, which is escaped
      character by character, is a list of UTF-16 code units.
    - The signals of the component are the fields of one record, [App];
      a method is a function from [App] to [App]. *)

From Stdlib Require Import ZArith NArith List String Ascii Bool Lia.
From Stdlib Require Import Floats.SpecFloat.
Import ListNotations.

Local Open Scope string_scope.

(** ** Numbers *)

Module JSNumber.

Definition number : Type := spec_float.

Definition prec : Z := 53.
Definition emax : Z := 1024.

Definition zero : number := S754_zero false.
Definition NaN : number := S754_nan.

Definition add : number -> number -> number := SFadd prec emax.
Definition sub : number -> number -> number := SFsub prec emax.
Definition div : number -> number -> number := SFdiv prec emax.

(** [x < y] and [x <= y]; both are false when an operand is NaN. *)
Definition ltb : number -> number -> bool := SFltb.
Definition leb : number -> number -> bool := SFleb.

(** The global [isNaN], on a number. *)
Definition isNaN (x : number) : bool :=
  match x with
  | S754_nan => true
  | _ => false
  end.

(** ToBoolean on a number: NaN, +0 and -0 are falsy. *)
Definition truthy (x : number) : bool :=
  match x with
  | S754_nan | S754_zero _ => false
  | _ => true
  end.

(** [x || 0]. *)
Definition or_zero (x : number) : number :=
  if truthy x then x else zero.

(** A number that is not NaN and not below zero: +0, a positive
    finite value or +Infinity. *)
Definition nonneg (x : number) : bool :=
  match x with
  | S754_zero false | S754_infinity false | S754_finite false _ _ => true
  | _ => false
  end.

Fixpoint pow10 (k : nat) : positive :=
  match k with
  | O => 1%positive
  | S k' => (10 * pow10 k')%positive
  end.

(** The Number value for the mathematical value
    [(-1)^neg * m * 10^e10]: the binary64 value nearest to it, ties to
    even.  The quotient of two integers is rounded once, by the
    division of [SpecFloat]. *)
Definition number_value (neg : bool) (m : N) (e10 : Z) : number :=
  match m with
  | N0 => S754_zero neg
  | Npos p =>
      div (S754_finite neg (p * pow10 (Z.to_nat e10)) 0)
          (S754_finite false (pow10 (Z.to_nat (- e10))) 0)
  end.

(** A number from an integer literal. *)
Definition of_Z (z : Z) : number :=
  match z with
  | Z0 => zero
  | Zpos p => number_value false (Npos p) 0
  | Zneg p => number_value true (Npos p) 0
  end.

End JSNumber.
Import JSNumber.

(** ** Strings *)

Module JSString.

Definition code (c : ascii) : N := N_of_ascii c.

Definition between (lo hi : N) (c : ascii) : bool :=
  ((lo <=? code c) && (code c <=? hi))%N.

(** [\d] *)
Definition is_digit (c : ascii) : bool := between 48 57 c.

(** [[A-Z]] under the [i] flag: the ASCII letters of either case. *)
Definition is_letter (c : ascii) : bool := between 65 90 c || between 97 122 c.

(** White space and line terminators: TAB, LF, VT, FF, CR, SP, NBSP. *)
Definition is_white_space (c : ascii) : bool :=
  between 9 13 c || (code c =? 32)%N || (code c =? 160)%N.

Definition upper (c : ascii) : ascii :=
  if between 97 122 c then ascii_of_N (code c - 32) else c.

Fixpoint map_string (f : ascii -> ascii) (s : string) : string :=
  match s with
  | EmptyString => EmptyString
  | String c r => String (f c) (map_string f r)
  end.

Fixpoint filter_string (p : ascii -> bool) (s : string) : string :=
  match s with
  | EmptyString => EmptyString
  | String c r => if p c then String c (filter_string p r) else filter_string p r
  end.

Fixpoint forall_string (p : ascii -> bool) (s : string) : bool :=
  match s with
  | EmptyString => true
  | String c r => p c && forall_string p r
  end.

(** [s.toUpperCase()], on the ASCII letters a match of [[A-Z]] holds. *)
Definition toUpperCase (s : string) : string := map_string upper s.

(** [s.match(/[A-Z]{2,3}/i)]: the leftmost run of two letters, with a
    third one when it follows; [None] for [null]. *)
Fixpoint match_code (s : string) : option string :=
  match s with
  | String c1 r1 =>
      match r1 with
      | String c2 r2 =>
          if is_letter c1 && is_letter c2 then
            match r2 with
            | String c3 _ =>
                if is_letter c3
                then Some (String c1 (String c2 (String c3 EmptyString)))
                else Some (String c1 (String c2 EmptyString))
            | EmptyString => Some (String c1 (String c2 EmptyString))
            end
          else match_code r1
      | EmptyString => None
      end
  | EmptyString => None
  end.

(** [s.replace(/[^\d,\.]/g, '')] *)
Definition keep_numeric (s : string) : string :=
  filter_string (fun c => is_digit c || Ascii.eqb c "," || Ascii.eqb c ".") s.

(** [s.replace(/\./g, '')] *)
Definition remove_periods (s : string) : string :=
  filter_string (fun c => negb (Ascii.eqb c ".")) s.

(** [s.replace(/,/g, '.')] *)
Definition commas_to_periods (s : string) : string :=
  map_string (fun c => if Ascii.eqb c "," then "."%char else c) s.

Fixpoint skip_white_space (s : string) : string :=
  match s with
  | String c r => if is_white_space c then skip_white_space r else s
  | EmptyString => EmptyString
  end.

Fixpoint rev_string (acc s : string) : string :=
  match s with
  | EmptyString => acc
  | String c r => rev_string (String c acc) r
  end.

(** [s.trim()] *)
Definition trim (s : string) : string :=
  rev_string "" (skip_white_space (rev_string "" (skip_white_space s))).

(** [s.includes(t)] *)
Fixpoint includes (t s : string) : bool :=
  prefix t s ||
  match s with
  | EmptyString => false
  | String _ r => includes t r
  end.

(** The longest prefix of digits, and what follows it. *)
Fixpoint span_digits (s : string) : string * string :=
  match s with
  | String c r =>
      if is_digit c
      then let '(ds, rest) := span_digits r in (String c ds, rest)
      else (EmptyString, s)
  | EmptyString => (EmptyString, EmptyString)
  end.

(** An optional sign: whether it is a minus, and what follows it. *)
Definition split_sign (s : string) : bool * string :=
  match s with
  | String "-" r => (true, r)
  | String "+" r => (false, r)
  | _ => (false, s)
  end.

(** The value of a run of decimal digits, read after [acc]. *)
Fixpoint digits_value (acc : N) (ds : string) : N :=
  match ds with
  | EmptyString => acc
  | String c r => digits_value (10 * acc + (code c - 48)) r
  end.

End JSString.
Import JSString.

(** ** [parseFloat] *)

(** The exponent part [e], [e+] or [e-] followed by digits; 0 when the
    text does not start with one. *)
Definition exponent_part (s : string) : Z :=
  match s with
  | String c r =>
      if Ascii.eqb c "e" || Ascii.eqb c "E" then
        let '(neg, r') := split_sign r in
        match fst (span_digits r') with
        | EmptyString => 0%Z
        | ds => let n := Z.of_N (digits_value 0 ds) in if neg then (- n)%Z else n
        end
      else 0%Z
  | EmptyString => 0%Z
  end.

(** [parseFloat(inputString)]: leading white space is skipped, then the
    longest prefix that is a decimal literal (sign, [Infinity] or digits
    with an optional fraction and exponent) is read; NaN when there is
    none. *)
Definition parseFloat (inputString : string) : number :=
  let trimmed := skip_white_space inputString in
  let '(neg, unsigned) := split_sign trimmed in
  if prefix "Infinity" unsigned then S754_infinity neg else
  let '(ip, r1) := span_digits unsigned in
  let '(fp, r2) :=
    match r1 with
    | String "." r => span_digits r
    | _ => (EmptyString, r1)
    end in
  match ip ++ fp with
  | EmptyString => NaN
  | ds => number_value neg (digits_value 0 ds)
                       (exponent_part r2 - Z.of_nat (String.length fp))
  end.

(** ** The currency parser *)

Record Currency : Type := { amount : number; currencyCode : string }.

Definition parseCurrency (currencyString : string) : Currency :=
  match currencyString with
  | EmptyString => {| amount := zero; currencyCode := "IDR" |}
  | _ =>
      let currencyCodeMatch := match_code currencyString in
      let currencyCode :=
        match currencyCodeMatch with
        | Some m => toUpperCase m
        | None => "IDR"
        end in
      let cleanedString := keep_numeric currencyString in
      let normalizedString := commas_to_periods (remove_periods cleanedString) in
      let amount := or_zero (parseFloat normalizedString) in
      {| amount := amount; currencyCode := currencyCode |}
  end.

(** ** The data model *)

Record Activity : Type := {
  name : string;
  time : string;
  cost : string;
  actualCost : option number;
  checkPriceLink : string
}.

Record DailyPlan : Type := {
  day : number;
  theme : string;
  activities : list Activity
}.

(** The signals of [AppComponent]; [None] is [null]. *)
Record App : Type := {
  destination : string;
  duration : option number;
  interests : string;
  totalBudgetInput : string;
  totalBudget : option number;
  itinerary : option (list DailyPlan);
  isLoading : bool;
  error : option string;
  totalEstimatedCost : number;
  totalActualCost : number;
  averageDailyBudgetRemaining : option number
}.

Definition set_totalBudget (v : option number) (st : App) : App :=
  {| destination := destination st; duration := duration st;
     interests := interests st; totalBudgetInput := totalBudgetInput st;
     totalBudget := v; itinerary := itinerary st; isLoading := isLoading st;
     error := error st; totalEstimatedCost := totalEstimatedCost st;
     totalActualCost := totalActualCost st;
     averageDailyBudgetRemaining := averageDailyBudgetRemaining st |}.

Definition set_itinerary (v : option (list DailyPlan)) (st : App) : App :=
  {| destination := destination st; duration := duration st;
     interests := interests st; totalBudgetInput := totalBudgetInput st;
     totalBudget := totalBudget st; itinerary := v; isLoading := isLoading st;
     error := error st; totalEstimatedCost := totalEstimatedCost st;
     totalActualCost := totalActualCost st;
     averageDailyBudgetRemaining := averageDailyBudgetRemaining st |}.

Definition set_isLoading (v : bool) (st : App) : App :=
  {| destination := destination st; duration := duration st;
     interests := interests st; totalBudgetInput := totalBudgetInput st;
     totalBudget := totalBudget st; itinerary := itinerary st; isLoading := v;
     error := error st; totalEstimatedCost := totalEstimatedCost st;
     totalActualCost := totalActualCost st;
     averageDailyBudgetRemaining := averageDailyBudgetRemaining st |}.

Definition set_error (v : option string) (st : App) : App :=
  {| destination := destination st; duration := duration st;
     interests := interests st; totalBudgetInput := totalBudgetInput st;
     totalBudget := totalBudget st; itinerary := itinerary st;
     isLoading := isLoading st; error := v;
     totalEstimatedCost := totalEstimatedCost st;
     totalActualCost := totalActualCost st;
     averageDailyBudgetRemaining := averageDailyBudgetRemaining st |}.

Definition set_summary (est act : number) (avg : option number) (st : App) : App :=
  {| destination := destination st; duration := duration st;
     interests := interests st; totalBudgetInput := totalBudgetInput st;
     totalBudget := totalBudget st; itinerary := itinerary st;
     isLoading := isLoading st; error := error st;
     totalEstimatedCost := est; totalActualCost := act;
     averageDailyBudgetRemaining := avg |}.

(** The signals as the component creates them. *)
Definition initial : App :=
  {| destination := ""; duration := None; interests := "";
     totalBudgetInput := ""; totalBudget := None; itinerary := None;
     isLoading := false; error := None;
     totalEstimatedCost := zero; totalActualCost := zero;
     averageDailyBudgetRemaining := None |}.

(** The three fields of the form. *)
Definition set_form (dest : string) (days : option number) (focus : string)
    (st : App) : App :=
  {| destination := dest; duration := days; interests := focus;
     totalBudgetInput := totalBudgetInput st; totalBudget := totalBudget st;
     itinerary := itinerary st; isLoading := isLoading st; error := error st;
     totalEstimatedCost := totalEstimatedCost st;
     totalActualCost := totalActualCost st;
     averageDailyBudgetRemaining := averageDailyBudgetRemaining st |}.

(** ** The budget aggregator *)

(** The two accumulators of [calculateSummary], [totalEst] and
    [totalAct]. *)
Record Totals : Type := { totalEst : number; totalAct : number }.

(** The body of the inner loop, for one activity. *)
Definition visit_activity (acc : Totals) (activity : Activity) : Totals :=
  let estAmount := amount (parseCurrency (cost activity)) in
  {| totalEst := add (totalEst acc) estAmount;
     totalAct :=
       match actualCost activity with
       | Some c => if negb (isNaN c) then add (totalAct acc) c else totalAct acc
       | None => totalAct acc
       end |}.

(** The body of the outer loop, for one day. *)
Definition visit_day (acc : Totals) (dayPlan : DailyPlan) : Totals :=
  fold_left visit_activity (activities dayPlan) acc.

Definition calculateSummary (st : App) : App :=
  let start := {| totalEst := zero; totalAct := zero |} in
  let totals :=
    match itinerary st with
    | Some currentItinerary => fold_left visit_day currentItinerary start
    | None => start
    end in
  let budget := totalBudget st in
  let durationDays := duration st in
  let average :=
    match budget, durationDays with
    | Some b, Some d =>
        if ltb zero d
        then
          let remainingBudget := sub b (totalAct totals) in
          let avgDailyRemaining := div remainingBudget d in
          Some avgDailyRemaining
        else None
    | _, _ => None
    end in
  set_summary (totalEst totals) (totalAct totals) average st.

Definition onTotalBudgetInputChange (st : App) : App :=
  let parsed := parseCurrency (totalBudgetInput st) in
  calculateSummary (set_totalBudget (Some (amount parsed)) st).

(** ** The generation workflow *)

(** A thrown error: whether it is a [SyntaxError], and its message
    (empty when it has none). *)
Record JSError : Type := { isSyntaxError : bool; message : string }.

(** What the component is given from outside.
    - [generateContent prompt] is the outcome of awaiting
      [GeminiService.generateContent(prompt, itinerarySchema)]: a
      rejection, or the [text] of the response ([None] when the
      response has none).
    - [JSON_parse] is [JSON.parse] at the type the cast
      [as DailyPlan[]] gives its result; the parsed activities may
      carry any [actualCost].
    - [Number_toString] is the conversion a template literal applies
      to a number. *)
Class Host : Type := {
  generateContent : string -> JSError + option string;
  JSON_parse : string -> JSError + list DailyPlan;
  Number_toString : number -> string
}.

Definition quote : string := String "034"%char EmptyString.

Definition validation_message : string :=
  "Harap isi Tujuan Wisata dan Durasi (Hari).".

Definition malformed_message : string :=
  "Gagal memproses itinerary: Model mungkin mengembalikan format yang tidak lengkap atau tidak valid. Coba lagi atau sesuaikan prompt Anda.".

Definition generic_prefix : string := "Gagal membuat itinerary: ".

Definition fallback_phrase : string := "Terjadi kesalahan tidak terduga.".

(** The [TypeError] of [response.text.trim()] on a response without
    text. *)
Definition no_text_error : JSError :=
  {| isSyntaxError := false;
     message := "Cannot read properties of undefined (reading 'trim')" |}.

Definition build_prompt `{Host} (st : App) : string :=
  "Buatkan itinerary perjalanan harian lengkap dalam bahasa Indonesia untuk destinasi "
  ++ quote ++ destination st ++ quote ++ " selama "
  ++ match duration st with Some d => Number_toString d | None => "null" end
  ++ " hari, dengan fokus pada " ++ quote ++ interests st ++ quote
  ++ ". Sertakan nama tempat/aktivitas, jam buka/tutup (atau perkiraan waktu), estimasi biaya dalam mata uang lokal (sertakan kode mata uang seperti 'IDR' atau 'JPY'), dan link placeholder untuk cek harga untuk setiap aktivitas. Format output harus JSON sesuai skema yang diberikan.".

(** ToBoolean of [this.destination()] and of [this.duration()]. *)
Definition destination_given (st : App) : bool :=
  match destination st with
  | EmptyString => false
  | _ => true
  end.

Definition duration_given (st : App) : bool :=
  match duration st with
  | Some d => truthy d
  | None => false
  end.

(** The run up to the [await]: either the guard returns at once, or
    the signals are reset and the client is called with the prompt. *)
Inductive Entered : Type :=
  | StaysIdle (st : App)
  | Generating (st : App) (prompt : string).

Definition enter `{Host} (st : App) : Entered :=
  if negb (destination_given st) || negb (duration_given st) then
    StaysIdle (set_error (Some validation_message) st)
  else
    let st1 := set_isLoading true st in
    let st2 := set_error None st1 in
    let st3 := set_itinerary None st2 in
    let st4 := set_summary zero zero None st3 in
    Generating st4 (build_prompt st4).

(** [actualCost: null] on every activity of every day. *)
Definition initialize_activity (activity : Activity) : Activity :=
  {| name := name activity; time := time activity; cost := cost activity;
     actualCost := None; checkPriceLink := checkPriceLink activity |}.

Definition initialize_day (dayPlan : DailyPlan) : DailyPlan :=
  {| day := day dayPlan; theme := theme dayPlan;
     activities := map initialize_activity (activities dayPlan) |}.

(** The [catch] block. *)
Definition on_error (e : JSError) (st : App) : App :=
  if isSyntaxError e && includes "JSON" (message e) then
    set_error (Some malformed_message) st
  else
    set_error
      (Some (generic_prefix ++
             match message e with
             | EmptyString => fallback_phrase
             | m => m
             end)) st.

(** The run after the [await], given its outcome: the [try] block,
    the [catch] block and [finally]. *)
Definition resume `{Host} (st : App) (response : JSError + option string) : App :=
  let after :=
    match response with
    | inl e => on_error e st
    | inr None => on_error no_text_error st
    | inr (Some text) =>
        let jsonStr := trim text in
        match JSON_parse jsonStr with
        | inl e => on_error e st
        | inr parsedItinerary =>
            let initializedItinerary := map initialize_day parsedItinerary in
            calculateSummary (set_itinerary (Some initializedItinerary) st)
        end
    end in
  set_isLoading false after.

(** One run of [generateItinerary]: the final signals and the prompts
    the client was called with. *)
Record Run : Type := { final : App; calls : list string }.

Definition generateItinerary `{Host} (st : App) : Run :=
  match enter st with
  | StaysIdle st' => {| final := st'; calls := [] |}
  | Generating st' prompt =>
      {| final := resume st' (generateContent prompt); calls := [prompt] |}
  end.

(** ** The currency formatter *)

(** [Intl.NumberFormat('id-ID', { style: 'currency', currency, ... })]:
    the text its [format] gives for a number, for a currency code the
    constructor accepts. *)
Class Locale : Type := {
  NumberFormat_format : string -> number -> string
}.

(** The codes the constructor accepts: three ASCII letters.  For any
    other code it throws a [RangeError]. *)
Definition well_formed_currency_code (c : string) : bool :=
  (String.length c =? 3)%nat && forall_string is_letter c.

(** [formatCurrency(amount, currencyCode = 'IDR')]; [None] for the
    code is the argument left out. *)
Definition formatCurrency `{Host} `{Locale}
    (amount : option number) (currencyCode : option string) : string :=
  let currencyCode :=
    match currencyCode with
    | Some c => c
    | None => "IDR"
    end in
  match amount with
  | None => "N/A"
  | Some a =>
      if isNaN a then "N/A"
      else if well_formed_currency_code currencyCode
           then NumberFormat_format currencyCode a
           else Number_toString a ++ " " ++ currencyCode
  end.

(** ** The search link *)

(** Whether a character is one of those of [set]. *)
Fixpoint one_of (set : string) (c : ascii) : bool :=
  match set with
  | EmptyString => false
  | String a r => Ascii.eqb c a || one_of r c
  end.

(** The characters [encodeURIComponent] leaves as they are. *)
Definition is_unreserved (c : ascii) : bool :=
  is_letter c || is_digit c || one_of "-_.!~*'()" c.

Definition hex_digit (n : N) : ascii :=
  if (n <? 10)%N then ascii_of_N (48 + n) else ascii_of_N (55 + n).

(** [%XY] for the byte [b]. *)
Definition percent (b : N) : string :=
  String "%" (String (hex_digit (b / 16)) (String (hex_digit (b mod 16)) EmptyString)).

(** A query is any string of the language: a list of UTF-16 code
    units, numbers below 65536. *)
Definition is_code_unit (u : N) : bool := (u <? 65536)%N.

(** The code units D800 to DBFF and DC00 to DFFF. *)
Definition is_high_surrogate (u : N) : bool := (55296 <=? u)%N && (u <=? 56319)%N.

Definition is_low_surrogate (u : N) : bool := (56320 <=? u)%N && (u <=? 57343)%N.

(** The code point of a surrogate pair. *)
Definition pair_code_point (u v : N) : N :=
  ((u - 55296) * 1024 + (v - 56320) + 65536)%N.

(** The escape of a code point: itself when it is an unreserved
    character, else the octets of its UTF-8 form, one to four, each as
    [%XY]. *)
Definition escape_code_point (cp : N) : string :=
  if (cp <? 128)%N then
    if is_unreserved (ascii_of_N cp) then String (ascii_of_N cp) EmptyString
    else percent cp
  else if (cp <? 2048)%N then
    percent (192 + cp / 64) ++ percent (128 + cp mod 64)
  else if (cp <? 65536)%N then
    percent (224 + cp / 4096) ++ percent (128 + (cp / 64) mod 64)
    ++ percent (128 + cp mod 64)
  else
    percent (240 + cp / 262144) ++ percent (128 + (cp / 4096) mod 64)
    ++ percent (128 + (cp / 64) mod 64) ++ percent (128 + cp mod 64).

(** [encodeURIComponent(query)]; [None] is the [URIError] it throws at
    a surrogate that is not part of a pair. *)
Fixpoint encodeURIComponent (q : list N) : option string :=
  match q with
  | [] => Some EmptyString
  | u :: r =>
      if is_low_surrogate u then None
      else if is_high_surrogate u then
        match r with
        | v :: r' =>
            if is_low_surrogate v
            then option_map (append (escape_code_point (pair_code_point u v)))
                            (encodeURIComponent r')
            else None
        | [] => None
        end
      else option_map (append (escape_code_point u)) (encodeURIComponent r)
  end.

(** A call of [window.open]. *)
Record Opened : Type := { url : string; target : string }.

Definition search_prefix : string := "https://www.google.com/search?q=".

(** [openGoogleSearch(query)]: the call of [window.open] it makes;
    [None] when [encodeURIComponent] throws, before any call. *)
Definition openGoogleSearch (query : list N) : option Opened :=
  match encodeURIComponent query with
  | Some escaped =>
      let searchUrl := search_prefix ++ escaped in
      Some {| url := searchUrl; target := "_blank" |}
  | None => None
  end.

(** ** What the specification compares the code with *)

(** Every activity of every day, in order; none for an absent
    itinerary. *)
Definition all_activities (it : option (list DailyPlan)) : list Activity :=
  match it with
  | Some days => flat_map activities days
  | None => []
  end.

(** The sum of a list of numbers, added from the left to 0. *)
Definition sum_numbers (l : list number) : number := fold_left add l zero.

(** The parsed amount of each cost string. *)
Definition estimated_amounts (acts : list Activity) : list number :=
  map (fun a => amount (parseCurrency (cost a))) acts.

(** The actual costs that count: those that are neither null nor NaN. *)
Definition counted_actual_costs (acts : list Activity) : list number :=
  flat_map
    (fun a =>
       match actualCost a with
       | Some c => if isNaN c then [] else [c]
       | None => []
       end) acts.

(** A string of white space only (possibly empty). *)
Definition white_space_only (s : string) : bool := forall_string is_white_space s.

(** The text [parseCurrency] hands to [parseFloat]. *)
Definition normalized (s : string) : string :=
  commas_to_periods (remove_periods (keep_numeric s)).

Definition digit_or_period (c : ascii) : bool := is_digit c || Ascii.eqb c ".".

(** A cost string of the shape [<number>[.,]*<number>* <CODE>]: a run
    of digits, a run of periods and commas, a run of digits, a space
    and a currency code of two or three letters. *)
Record CostText : Type := {
  whole : string;
  separators : string;
  decimals : string;
  letters : string
}.

Definition cost_text (ct : CostText) : string :=
  whole ct ++ separators ct ++ decimals ct ++ " " ++ letters ct.

Definition is_separator (c : ascii) : bool := Ascii.eqb c "." || Ascii.eqb c ",".

Definition well_formed (ct : CostText) : bool :=
  negb (String.eqb (whole ct) "") &&
  forall_string is_digit (whole ct) &&
  forall_string is_separator (separators ct) &&
  forall_string is_digit (decimals ct) &&
  forall_string is_letter (letters ct) &&
  ((String.length (letters ct) =? 2)%nat || (String.length (letters ct) =? 3)%nat).

(** The number of commas of a string. *)
Definition commas (s : string) : nat :=
  String.length (filter_string (fun c => Ascii.eqb c ",") s).

(** A run of [n] periods: the separators after normalisation, one
    period for each comma. *)
Fixpoint periods (n : nat) : string :=
  match n with
  | O => EmptyString
  | S n' => String "." (periods n')
  end.

(** The value a cost string is meant to have when periods group
    thousands and a comma starts the decimals: the digits of both runs,
    the second run being decimals when a comma separates the two; as a
    number, the binary64 value nearest to it. *)
Definition intended_value (ct : CostText) : number :=
  number_value false
    (digits_value 0 (whole ct ++ decimals ct))
    (if (0 <? commas (separators ct))%nat
     then (- Z.of_nat (String.length (decimals ct)))%Z
     else 0%Z).

(** The parser gives the intended amount and the code in capitals. *)
Definition parsed_as_intended (ct : CostText) : Prop :=
  amount (parseCurrency (cost_text ct)) = intended_value ct /\
  currencyCode (parseCurrency (cost_text ct)) = toUpperCase (letters ct).

(** A run of the workflow that ends in failure with the given message:
    the message is shown, there is no itinerary and the loading flag is
    cleared. *)
Definition failed_with (msg : string) (st : App) : Prop :=
  error st = Some msg /\ itinerary st = None /\ isLoading st = false.

(** The message of the generic failure for an error. *)
Definition generic_message (e : JSError) : string :=
  generic_prefix ++
  match message e with
  | EmptyString => fallback_phrase
  | m => m
  end.

(** C4 as stated: the client is called exactly when the destination is
    not empty and the duration is not null. *)
Definition guard_as_stated `{Host} (st : App) : Prop :=
  (exists st1 prompt,
     enter st = Generating st1 prompt /\ calls (generateItinerary st) = [prompt])
  <-> (destination st <> "" /\ duration st <> None).

(** A capital ASCII letter. *)
Definition is_upper (c : ascii) : bool := between 65 90 c.

(** A string without digits. *)
Definition no_digit (s : string) : bool := forall_string (fun c => negb (is_digit c)) s.

(** A number that is +Infinity or -Infinity. *)
Definition is_infinite (x : number) : bool :=
  match x with
  | S754_infinity _ => true
  | _ => false
  end.

(** No activity of the itinerary has an infinite actual cost. *)
Definition finite_actual_costs (it : option (list DailyPlan)) : Prop :=
  Forall (fun a => forall c, actualCost a = Some c -> is_infinite c = false)
         (all_activities it).

(** The days without the activities whose cost string has no digit. *)
Definition priced_only (days : list DailyPlan) : list DailyPlan :=
  map (fun d =>
         {| day := day d; theme := theme d;
            activities := filter (fun a => negb (no_digit (cost a))) (activities d) |})
      days.

(** A string in which every surrogate is part of a pair. *)
Fixpoint well_paired (q : list N) : bool :=
  match q with
  | [] => true
  | u :: r =>
      if is_low_surrogate u then false
      else if is_high_surrogate u then
        match r with
        | v :: r' => is_low_surrogate v && well_paired r'
        | [] => false
        end
      else well_paired r
  end.

(** The code units of a text of code units below 256. *)
Fixpoint units_of (s : string) : list N :=
  match s with
  | EmptyString => []
  | String c r => code c :: units_of r
  end.

(** The value of a capital hexadecimal digit, and of two. *)
Definition hex_val (c : ascii) : N :=
  if is_digit c then (code c - 48)%N else (code c - 55)%N.

Definition byte_of (h1 h2 : ascii) : N := (16 * hex_val h1 + hex_val h2)%N.

(** Reading the escapes back: the inverse of [encodeURIComponent] on
    what it produces. *)
Fixpoint unescape (s : string) : list N :=
  match s with
  | EmptyString => []
  | String c r =>
      if Ascii.eqb c "%" then
        match r with
        | String h1 (String h2 r2) =>
            let b1 := byte_of h1 h2 in
            if (b1 <? 128)%N then b1 :: unescape r2
            else
              match r2 with
              | String _ (String h3 (String h4 r3)) =>
                  let b2 := byte_of h3 h4 in
                  if (b1 <? 224)%N
                  then ((b1 - 192) * 64 + (b2 - 128))%N :: unescape r3
                  else
                    match r3 with
                    | String _ (String h5 (String h6 r4)) =>
                        let b3 := byte_of h5 h6 in
                        if (b1 <? 240)%N
                        then ((b1 - 224) * 4096 + (b2 - 128) * 64 + (b3 - 128))%N
                             :: unescape r4
                        else
                          match r4 with
                          | String _ (String h7 (String h8 r5)) =>
                              let b4 := byte_of h7 h8 in
                              let v := ((b1 - 240) * 262144 + (b2 - 128) * 4096
                                        + (b3 - 128) * 64 + (b4 - 128) - 65536)%N in
                              (55296 + v / 1024)%N :: (56320 + v mod 1024)%N
                              :: unescape r5
                          | _ => []
                          end
                    | _ => []
                    end
              | _ => []
              end
        | _ => []
        end
      else code c :: unescape r
  end.

(** The characters of an escaped text: the unreserved ones and [%]. *)
Definition uri_safe (c : ascii) : bool := is_unreserved c || Ascii.eqb c "%".

(** Sample queries: a Latin one, the three characters of the name of
    the Golden Pavilion followed by a character outside the basic
    plane (a surrogate pair), and one with a surrogate left alone. *)
Definition latin_query : list N := units_of "Kinkaku-ji harga tiket & jam".

Definition kanji_query : list N := [37329; 38307; 23546; 32; 55357; 56832]%N.

Definition broken_query : list N := [75; 55357; 75]%N.

(** The text of the budget field. *)
Definition set_totalBudgetInput (v : string) (st : App) : App :=
  {| destination := destination st; duration := duration st;
     interests := interests st; totalBudgetInput := v;
     totalBudget := totalBudget st; itinerary := itinerary st;
     isLoading := isLoading st; error := error st;
     totalEstimatedCost := totalEstimatedCost st;
     totalActualCost := totalActualCost st;
     averageDailyBudgetRemaining := averageDailyBudgetRemaining st |}.

(** The states of the component once the budget field has been edited:
    the state an edit leaves, and every state reached from it by the
    methods of the component ([calculateSummary], another edit, a run
    of [generateItinerary] up to its [await] and after it, with any
    host and any outcome) and by what the user writes into the form,
    the budget text and the itinerary (the actual costs). *)
Inductive once_edited : App -> Prop :=
  | edited (st : App) :
      once_edited (onTotalBudgetInputChange st)
  | then_calculateSummary (st : App) :
      once_edited st -> once_edited (calculateSummary st)
  | then_stays_idle (h : Host) (st st' : App) :
      once_edited st -> @enter h st = StaysIdle st' -> once_edited st'
  | then_generating (h : Host) (st st1 : App) (prompt : string) :
      once_edited st -> @enter h st = Generating st1 prompt -> once_edited st1
  | then_resume (h : Host) (st : App) (response : JSError + option string) :
      once_edited st -> once_edited (@resume h st response)
  | then_form (dest : string) (days : option number) (focus : string) (st : App) :
      once_edited st -> once_edited (set_form dest days focus st)
  | then_budget_text (v : string) (st : App) :
      once_edited st -> once_edited (set_totalBudgetInput v st)
  | then_itinerary (it : option (list DailyPlan)) (st : App) :
      once_edited st -> once_edited (set_itinerary it st).

(** The average is null only for a duration that is null or not
    positive. *)
Definition average_null_by_duration (st : App) : Prop :=
  averageDailyBudgetRemaining st = None ->
  duration st = None \/ exists d, duration st = Some d /\ ltb zero d = false.

(** ** Sample inputs *)

Definition kyoto_form : App := set_form "Kyoto" (Some (of_Z 3)) "temples" initial.

Definition zero_days_form : App := set_form "Kyoto" (Some zero) "temples" initial.

Definition sample_activity (n c : string) (paid : option number) : Activity :=
  {| name := n; time := "09:00 - 17:00"; cost := c; actualCost := paid;
     checkPriceLink := "https://example.com/" ++ n |}.

(** Three days as a response may describe them; two activities carry
    an actual cost. *)
Definition sample_plans : list DailyPlan :=
  [ {| day := of_Z 1; theme := "Temples";
       activities := [ sample_activity "Kinkakuji" "500 JPY" (Some (of_Z 5));
                       sample_activity "Ryoanji" "1.000,50 JPY" None ] |};
    {| day := of_Z 2; theme := "Shrines";
       activities := [ sample_activity "Fushimi Inari" "Gratis" (Some (of_Z 7)) ] |};
    {| day := of_Z 3; theme := "Gardens";
       activities := [ sample_activity "Ginkakuji" "500 JPY" None ] |} ].

(** The same days with two actual costs entered by the user. *)
Definition sample_spent : list DailyPlan :=
  [ {| day := of_Z 1; theme := "Temples";
       activities := [ sample_activity "Kinkakuji" "500 JPY" (Some (of_Z 450));
                       sample_activity "Ryoanji" "1.000,50 JPY" None ] |};
    {| day := of_Z 2; theme := "Shrines";
       activities := [ sample_activity "Fushimi Inari" "Gratis" (Some NaN) ] |};
    {| day := of_Z 3; theme := "Gardens";
       activities := [ sample_activity "Ginkakuji" "500 JPY" (Some (of_Z 50)) ] |} ].

Definition quoted (s : string) : string := quote ++ s ++ quote.

Definition activity_json (n c paid : string) : string :=
  "{" ++ quoted "name" ++ ":" ++ quoted n ++ ","
      ++ quoted "time" ++ ":" ++ quoted "09:00 - 17:00" ++ ","
      ++ quoted "cost" ++ ":" ++ quoted c ++ ","
      ++ quoted "checkPriceLink" ++ ":" ++ quoted ("https://example.com/" ++ n)
      ++ paid ++ "}".

Definition day_json (d t acts : string) : string :=
  "{" ++ quoted "day" ++ ":" ++ d ++ "," ++ quoted "theme" ++ ":" ++ quoted t ++ ","
      ++ quoted "activities" ++ ":[" ++ acts ++ "]}".

(** The JSON text of [sample_plans]. *)
Definition sample_json : string :=
  "[" ++ day_json "1" "Temples"
           (activity_json "Kinkakuji" "500 JPY" ("," ++ quoted "actualCost" ++ ":5")
            ++ "," ++ activity_json "Ryoanji" "1.000,50 JPY" "")
      ++ "," ++ day_json "2" "Shrines"
           (activity_json "Fushimi Inari" "Gratis" ("," ++ quoted "actualCost" ++ ":7"))
      ++ "," ++ day_json "3" "Gardens" (activity_json "Ginkakuji" "500 JPY" "")
      ++ "]".

(** A response text: the JSON with white space around it. *)
Definition sample_reply : string := "  " ++ sample_json ++ String "010"%char EmptyString.

(** The error a host raises for text that is not JSON. *)
Definition not_json_error : JSError :=
  {| isSyntaxError := true;
     message := "Expected property name or '}' in JSON at position 1" |}.

(** A host for the sample runs: its client answers every prompt with
    [reply], and its [JSON.parse] reads [sample_json] as the sample
    days and rejects any other text. *)
Definition sample_host (reply : JSError + option string) : Host :=
  {| generateContent := fun _ => reply;
     JSON_parse := fun s =>
       if String.eqb s sample_json then inr sample_plans else inl not_json_error;
     Number_toString := fun n => if SFeqb n (of_Z 3) then "3" else "0" |}.

(** A trip in progress: a budget of 1000, three days, two actual costs
    entered and one input left as NaN. *)
Definition trip : App :=
  {| destination := "Kyoto"; duration := Some (of_Z 3); interests := "temples";
     totalBudgetInput := "1.000 JPY"; totalBudget := Some (of_Z 1000);
     itinerary := Some sample_spent; isLoading := false; error := None;
     totalEstimatedCost := zero; totalActualCost := zero;
     averageDailyBudgetRemaining := None |}.

(** A host whose client answers with text that is not JSON. *)
Definition failing_host : Host := sample_host (inr (Some "{not json")).

(** The trip after an edit of its budget field and a run that
    failed. *)
Definition failed_after_edit : App :=
  final (@generateItinerary failing_host (onTotalBudgetInputChange trip)).

(** The host that answers with the sample response. *)
Definition kyoto_host : Host := sample_host (inr (Some sample_reply)).

Definition one_comma : CostText :=
  {| whole := "1"; separators := ".,"; decimals := "50"; letters := "usd" |}.

Definition two_commas : CostText :=
  {| whole := "1"; separators := ",,"; decimals := "5"; letters := "USD" |}.

(** * Properties *)

(** ** Characters and strings *)

Ltac by_cases_on_char c :=
  destruct c as [[] [] [] [] [] [] [] []]; vm_compute; intros; congruence.

Lemma white_space_not_letter (c : ascii) :
  is_white_space c = true -> is_letter c = false.
Proof. by_cases_on_char c. Qed.

Lemma white_space_not_numeric (c : ascii) :
  is_white_space c = true ->
  is_digit c || Ascii.eqb c "," || Ascii.eqb c "." = false.
Proof. by_cases_on_char c. Qed.

Lemma match_code_drop (c : ascii) (s : string) :
  is_letter c = false -> match_code (String c s) = match_code s.
Proof.
  intros Hc. simpl. rewrite Hc. simpl. destruct s; reflexivity.
Qed.

Lemma match_code_skip (x y : string) :
  forall_string (fun c => negb (is_letter c)) x = true ->
  match_code (x ++ y) = match_code y.
Proof.
  induction x as [|c x IH]; intros Hx; [reflexivity|].
  simpl in Hx. apply andb_true_iff in Hx as [Hc Hx].
  apply negb_true_iff in Hc.
  change (String c x ++ y) with (String c (x ++ y)).
  rewrite match_code_drop by assumption. auto.
Qed.

Lemma append_empty_r (s : string) : s ++ "" = s.
Proof. induction s as [|c s IH]; simpl; congruence. Qed.

Lemma match_code_no_letter (s : string) :
  forall_string (fun c => negb (is_letter c)) s = true -> match_code s = None.
Proof.
  intros Hs. rewrite <- (append_empty_r s). now rewrite match_code_skip.
Qed.

Lemma forall_string_impl (p q : ascii -> bool) (s : string) :
  (forall c, p c = true -> q c = true) ->
  forall_string p s = true -> forall_string q s = true.
Proof.
  intros Hpq. induction s as [|c s IH]; simpl; [reflexivity|].
  intros H. apply andb_true_iff in H as [Hc Hs].
  rewrite (Hpq _ Hc), (IH Hs). reflexivity.
Qed.

Lemma filter_string_none (p : ascii -> bool) (s : string) :
  forall_string (fun c => negb (p c)) s = true -> filter_string p s = "".
Proof.
  induction s as [|c s IH]; simpl; [reflexivity|].
  intros H. apply andb_true_iff in H as [Hc Hs].
  apply negb_true_iff in Hc. rewrite Hc. auto.
Qed.

Lemma filter_string_all (p : ascii -> bool) (s : string) :
  forall_string p s = true -> filter_string p s = s.
Proof.
  induction s as [|c s IH]; simpl; [reflexivity|].
  intros H. apply andb_true_iff in H as [Hc Hs].
  rewrite Hc, (IH Hs). reflexivity.
Qed.

Lemma filter_string_app (p : ascii -> bool) (x y : string) :
  filter_string p (x ++ y) = filter_string p x ++ filter_string p y.
Proof.
  induction x as [|c x IH]; simpl; [reflexivity|].
  destruct (p c); simpl; congruence.
Qed.

Lemma map_string_app (f : ascii -> ascii) (x y : string) :
  map_string f (x ++ y) = map_string f x ++ map_string f y.
Proof. induction x as [|c x IH]; simpl; congruence. Qed.

Lemma map_string_id (f : ascii -> ascii) (p : ascii -> bool) (s : string) :
  (forall c, p c = true -> f c = c) ->
  forall_string p s = true -> map_string f s = s.
Proof.
  intros Hf. induction s as [|c s IH]; simpl; [reflexivity|].
  intros H. apply andb_true_iff in H as [Hc Hs].
  rewrite (Hf _ Hc), (IH Hs). reflexivity.
Qed.

Lemma forall_string_app (p : ascii -> bool) (x y : string) :
  forall_string p (x ++ y) = forall_string p x && forall_string p y.
Proof.
  induction x as [|c x IH]; simpl; [reflexivity|].
  rewrite IH. apply andb_assoc.
Qed.

(** ** C7: empty and white-space-only cost strings *)

(** C7.  For every empty or white-space-only input string the currency
    parser returns the amount 0 and the default currency code IDR. *)
Theorem parseCurrency_white_space (s : string) :
  white_space_only s = true ->
  parseCurrency s = {| amount := zero; currencyCode := "IDR" |}.
Proof.
  intros Hs. destruct s as [|c s]; [reflexivity|].
  unfold parseCurrency, keep_numeric.
  rewrite match_code_no_letter, filter_string_none; [reflexivity| |].
  - revert Hs. apply forall_string_impl. intros a Ha.
    now rewrite white_space_not_numeric.
  - revert Hs. apply forall_string_impl. intros a Ha.
    now rewrite white_space_not_letter.
Qed.

Lemma parseCurrency_white_space_witness :
  white_space_only "   " = true /\
  parseCurrency "   " = {| amount := zero; currencyCode := "IDR" |}.
Proof.
  split; [reflexivity | apply (parseCurrency_white_space "   "); reflexivity].
Defined.

(** ** C3: the totals *)

Lemma visit_activities_totals (acts : list Activity) (acc : Totals) :
  fold_left visit_activity acts acc =
  {| totalEst := fold_left add (estimated_amounts acts) (totalEst acc);
     totalAct := fold_left add (counted_actual_costs acts) (totalAct acc) |}.
Proof.
  revert acc. induction acts as [|a acts IH]; intros acc.
  - destruct acc; reflexivity.
  - simpl. rewrite IH. unfold visit_activity at 1 2. simpl.
    destruct (actualCost a) as [c|]; [destruct (isNaN c)|]; simpl;
      rewrite ?fold_left_app; reflexivity.
Qed.

Lemma visit_days_totals (days : list DailyPlan) (acc : Totals) :
  fold_left visit_day days acc =
  {| totalEst :=
       fold_left add (estimated_amounts (flat_map activities days)) (totalEst acc);
     totalAct :=
       fold_left add (counted_actual_costs (flat_map activities days)) (totalAct acc) |}.
Proof.
  revert acc. induction days as [|d days IH]; intros acc.
  - destruct acc; reflexivity.
  - simpl. rewrite IH. unfold visit_day. rewrite visit_activities_totals. simpl.
    unfold estimated_amounts, counted_actual_costs.
    rewrite map_app, flat_map_app, !fold_left_app. reflexivity.
Qed.

Lemma calculateSummary_totals (st : App) :
  totalEstimatedCost (calculateSummary st) =
    sum_numbers (estimated_amounts (all_activities (itinerary st))) /\
  totalActualCost (calculateSummary st) =
    sum_numbers (counted_actual_costs (all_activities (itinerary st))).
Proof.
  unfold calculateSummary, sum_numbers. simpl.
  destruct (itinerary st) as [days|]; simpl.
  - rewrite visit_days_totals. simpl. split; reflexivity.
  - split; reflexivity.
Qed.

(** C3.  After the budget aggregator runs, the total estimated cost is
    the sum, over all activities of all days, of the parsed amount of
    the activity's cost string, and the total actual cost is the sum of
    the actual costs that are neither null nor NaN, the others being
    skipped; both are 0 for the empty and for the absent itinerary. *)
Theorem calculateSummary_sums (st : App) :
  totalEstimatedCost (calculateSummary st) =
    sum_numbers (estimated_amounts (all_activities (itinerary st))) /\
  totalActualCost (calculateSummary st) =
    sum_numbers (counted_actual_costs (all_activities (itinerary st))) /\
  (itinerary st = None \/ itinerary st = Some [] ->
   totalEstimatedCost (calculateSummary st) = zero /\
   totalActualCost (calculateSummary st) = zero).
Proof.
  destruct (calculateSummary_totals st) as [He Ha].
  repeat split; try assumption.
  - rewrite He. destruct H as [-> | ->]; reflexivity.
  - rewrite Ha. destruct H as [-> | ->]; reflexivity.
Qed.

Lemma calculateSummary_sums_witness :
  totalEstimatedCost (calculateSummary initial) = zero /\
  totalActualCost (calculateSummary initial) = zero.
Proof.
  exact (proj2 (proj2 (calculateSummary_sums initial)) (or_introl eq_refl)).
Defined.

(** ** Numbers: rounding keeps the sign *)

Section Rounding.

Variables p_ e_ : Z.

Lemma shr_1_nonneg (r : shr_record) :
  (0 <= shr_m r)%Z -> (0 <= shr_m (shr_1 r))%Z.
Proof.
  destruct r as [m r s]. destruct m as [|[q|q|]|q]; simpl; lia.
Qed.

Lemma iter_shr_1_nonneg (n : positive) :
  forall r, (0 <= shr_m r)%Z -> (0 <= shr_m (iter_pos shr_1 n r))%Z.
Proof.
  induction n as [n IH|n IH|]; intros r Hr; simpl.
  - apply IH, IH, shr_1_nonneg, Hr.
  - apply IH, IH, Hr.
  - apply shr_1_nonneg, Hr.
Qed.

Lemma shr_fexp_nonneg (m e : Z) (l : location) :
  (0 <= m)%Z -> (0 <= shr_m (fst (shr_fexp p_ e_ m e l)))%Z.
Proof.
  intros Hm. unfold shr_fexp, shr.
  assert (H0 : (0 <= shr_m (shr_record_of_loc m l))%Z)
    by (destruct l as [|[]]; exact Hm).
  destruct (fexp p_ e_ (Zdigits2 m + e) - e)%Z; simpl; auto.
  apply iter_shr_1_nonneg, H0.
Qed.

Lemma round_nearest_even_nonneg (m : Z) (l : location) :
  (0 <= m)%Z -> (0 <= round_nearest_even m l)%Z.
Proof.
  intros Hm. destruct l as [|[]]; simpl; try lia.
  destruct (Z.even m); lia.
Qed.

Lemma binary_round_aux_nonneg (m e : Z) (l : location) :
  (0 <= m)%Z -> nonneg (binary_round_aux p_ e_ false m e l) = true.
Proof.
  intros Hm. unfold binary_round_aux.
  pose proof (shr_fexp_nonneg m e l Hm) as H1.
  destruct (shr_fexp p_ e_ m e l) as [r1 e1]. simpl in H1.
  pose proof (shr_fexp_nonneg _ e1 loc_Exact
                (round_nearest_even_nonneg _ (loc_of_shr_record r1) H1)) as H2.
  destruct (shr_fexp p_ e_ _ e1 loc_Exact) as [r2 e2]. simpl in H2.
  destruct (shr_m r2); [reflexivity | | lia].
  destruct (e2 <=? e_ - p_)%Z; reflexivity.
Qed.

Lemma SFdiv_nonneg (mx my : positive) (ex ey : Z) :
  nonneg (SFdiv p_ e_ (S754_finite false mx ex) (S754_finite false my ey)) = true.
Proof.
  unfold SFdiv, SFdiv_core_binary.
  set (s := (ex - ey - _)%Z).
  set (m' := match s with Z0 => _ | Zpos _ => _ | Zneg _ => _ end).
  assert (Hm' : (0 <= m')%Z).
  { subst m'. destruct s; try lia. apply Z.shiftl_nonneg. lia. }
  pose proof (Z.div_pos m' (Zpos my) Hm' ltac:(lia)) as Hq.
  unfold Z.div in Hq.
  destruct (Z.div_eucl m' (Zpos my)) as [q r].
  apply binary_round_aux_nonneg, Hq.
Qed.

End Rounding.

Lemma number_value_nonneg (m : N) (e10 : Z) :
  nonneg (number_value false m e10) = true.
Proof.
  destruct m as [|p]; [reflexivity|]. apply SFdiv_nonneg.
Qed.

Lemma nonneg_not_NaN (x : number) : nonneg x = true -> isNaN x = false.
Proof. destruct x as [[]|[]| |[] m e]; simpl; congruence. Qed.

Lemma nonneg_not_below_zero (x : number) : nonneg x = true -> ltb x zero = false.
Proof. destruct x as [[]|[]| |[] m e]; cbn; intros; try reflexivity; congruence. Qed.

Lemma or_zero_nonneg_id (x : number) : nonneg x = true -> or_zero x = x.
Proof. destruct x as [[]|[]| |[] m e]; cbn; intros; try reflexivity; congruence. Qed.

Lemma or_zero_nonneg (x : number) :
  isNaN x = true \/ nonneg x = true -> nonneg (or_zero x) = true.
Proof.
  intros [H|H]; [destruct x; try discriminate; reflexivity|].
  now rewrite or_zero_nonneg_id.
Qed.

(** For a number, [d <= 0] fails exactly when [0 < d] holds. *)
Lemma not_leb_zero (d : number) :
  isNaN d = false -> leb d zero = false -> ltb zero d = true.
Proof. destruct d as [[]|[]| |[] m e]; cbn; intros; congruence. Qed.

Lemma leb_zero_not_ltb (d : number) : leb d zero = true -> ltb zero d = false.
Proof. destruct d as [[]|[]| |[] m e]; cbn; intros; congruence. Qed.

(** ** C9: the parsed amount is never negative and never NaN *)

Lemma normalized_char (c : ascii) :
  is_digit c || Ascii.eqb c "," || Ascii.eqb c "." = true ->
  negb (Ascii.eqb c ".") = true ->
  digit_or_period (if Ascii.eqb c "," then "."%char else c) = true.
Proof. by_cases_on_char c. Qed.

Lemma normalized_digit_or_period (s : string) :
  forall_string digit_or_period (normalized s) = true.
Proof.
  unfold normalized, commas_to_periods, remove_periods, keep_numeric.
  induction s as [|c s IH]; simpl; [reflexivity|].
  destruct (is_digit c || Ascii.eqb c "," || Ascii.eqb c ".") eqn:E1; simpl; auto.
  destruct (negb (Ascii.eqb c ".")) eqn:E2; simpl; auto.
  rewrite IH, (normalized_char c E1 E2). reflexivity.
Qed.

(** A digit or a period at the head of a text is no white space, no
    sign and not the start of [Infinity]. *)
Ltac by_head_char c :=
  destruct c as [[] [] [] [] [] [] [] []]; intros Hc; try reflexivity;
  vm_compute in Hc; discriminate.

Lemma split_sign_head (c : ascii) (r : string) :
  digit_or_period c = true -> split_sign (String c r) = (false, String c r).
Proof. by_head_char c. Qed.

Lemma skip_white_space_head (c : ascii) (r : string) :
  digit_or_period c = true -> skip_white_space (String c r) = String c r.
Proof. by_head_char c. Qed.

Lemma prefix_Infinity_head (c : ascii) (r : string) :
  digit_or_period c = true -> prefix "Infinity" (String c r) = false.
Proof. by_head_char c. Qed.

Lemma split_sign_digit_or_period (s : string) :
  forall_string digit_or_period s = true -> split_sign s = (false, s).
Proof.
  destruct s as [|c r]; [reflexivity|]. simpl. intros H.
  apply andb_true_iff in H as [Hc _]. now apply split_sign_head.
Qed.

Lemma skip_white_space_digit_or_period (s : string) :
  forall_string digit_or_period s = true -> skip_white_space s = s.
Proof.
  destruct s as [|c r]; [reflexivity|]. simpl forall_string. intros H.
  apply andb_true_iff in H as [Hc _]. now apply skip_white_space_head.
Qed.

Lemma prefix_Infinity (s : string) :
  forall_string digit_or_period s = true -> prefix "Infinity" s = false.
Proof.
  destruct s as [|c r]; [reflexivity|]. simpl forall_string. intros H.
  apply andb_true_iff in H as [Hc _]. now apply prefix_Infinity_head.
Qed.

(** After the minus signs are gone, [parseFloat] gives NaN or a number
    that is not negative. *)
Lemma parseFloat_unsigned (s : string) :
  forall_string digit_or_period s = true ->
  isNaN (parseFloat s) = true \/ nonneg (parseFloat s) = true.
Proof.
  intros Hs. unfold parseFloat.
  rewrite (skip_white_space_digit_or_period s Hs),
          (split_sign_digit_or_period s Hs).
  destruct (prefix "Infinity" s); [right; reflexivity|].
  destruct (span_digits s) as [ip r1].
  destruct (match r1 with
            | String "." r => span_digits r
            | _ => (EmptyString, r1)
            end) as [fp r2].
  destruct (ip ++ fp) as [|c ds]; [left; reflexivity|].
  right. apply number_value_nonneg.
Qed.

Lemma parseCurrency_amount (s : string) :
  amount (parseCurrency s) =
  match s with
  | EmptyString => zero
  | _ => or_zero (parseFloat (normalized s))
  end.
Proof. destruct s; reflexivity. Qed.

Lemma parseCurrency_amount_nonneg (s : string) :
  nonneg (amount (parseCurrency s)) = true.
Proof.
  rewrite parseCurrency_amount. destruct s as [|c r]; [reflexivity|].
  apply or_zero_nonneg, parseFloat_unsigned, normalized_digit_or_period.
Qed.

(** C9.  For every input string, the amount the currency parser returns
    is a number that is neither negative nor NaN, so every term of the
    estimated total is such a number. *)
Theorem parseCurrency_amount_not_negative :
  (forall s : string,
     nonneg (amount (parseCurrency s)) = true /\
     isNaN (amount (parseCurrency s)) = false /\
     ltb (amount (parseCurrency s)) zero = false) /\
  (forall acts : list Activity,
     Forall (fun x => isNaN x = false /\ ltb x zero = false)
            (estimated_amounts acts)).
Proof.
  split.
  - intros s. pose proof (parseCurrency_amount_nonneg s) as H.
    auto using nonneg_not_NaN, nonneg_not_below_zero.
  - intros acts. unfold estimated_amounts. apply Forall_map, Forall_forall.
    intros a _. pose proof (parseCurrency_amount_nonneg (cost a)) as H.
    auto using nonneg_not_NaN, nonneg_not_below_zero.
Qed.

(** ** C1: the average remaining per day *)

(** C1.  The average remaining per day is null whenever the total
    budget is null, or the duration is null, or the duration is at most
    0; otherwise, for a duration that is a number, it is
    [(budget - totalActual) / duration], with [totalActual] the total
    actual cost of the same run. *)
Theorem average_remaining_per_day (st : App) :
  (totalBudget st = None ->
   averageDailyBudgetRemaining (calculateSummary st) = None) /\
  (duration st = None ->
   averageDailyBudgetRemaining (calculateSummary st) = None) /\
  (forall d, duration st = Some d -> leb d zero = true ->
   averageDailyBudgetRemaining (calculateSummary st) = None) /\
  (forall b d, totalBudget st = Some b -> duration st = Some d ->
   isNaN d = false -> leb d zero = false ->
   averageDailyBudgetRemaining (calculateSummary st) =
   Some (div (sub b (totalActualCost (calculateSummary st))) d)).
Proof.
  unfold calculateSummary. simpl. repeat split.
  - intros ->. reflexivity.
  - intros ->. destruct (totalBudget st); reflexivity.
  - intros d -> Hd. rewrite (leb_zero_not_ltb d Hd).
    destruct (totalBudget st); reflexivity.
  - intros b d -> -> Hn Hd. rewrite (not_leb_zero d Hn Hd). reflexivity.
Qed.

Lemma average_remaining_per_day_witness :
  averageDailyBudgetRemaining (calculateSummary initial) = None /\
  averageDailyBudgetRemaining (calculateSummary zero_days_form) = None /\
  averageDailyBudgetRemaining (calculateSummary trip) =
    Some (div (sub (of_Z 1000) (totalActualCost (calculateSummary trip))) (of_Z 3)).
Proof.
  split; [|split].
  - exact (proj1 (average_remaining_per_day initial) eq_refl).
  - exact (proj1 (proj2 (proj2 (average_remaining_per_day zero_days_form)))
             zero eq_refl eq_refl).
  - exact (proj2 (proj2 (proj2 (average_remaining_per_day trip)))
             (of_Z 1000) (of_Z 3) eq_refl eq_refl eq_refl eq_refl).
Defined.

(** ** C8: the summary is a function of its three inputs *)

(** C8.  The summary figures depend on the itinerary, the total budget
    and the duration only, and running the aggregator a second time
    with these unchanged changes nothing. *)
Theorem calculateSummary_pure :
  (forall st, calculateSummary (calculateSummary st) = calculateSummary st) /\
  (forall st1 st2,
     itinerary st1 = itinerary st2 ->
     totalBudget st1 = totalBudget st2 ->
     duration st1 = duration st2 ->
     totalEstimatedCost (calculateSummary st1) =
       totalEstimatedCost (calculateSummary st2) /\
     totalActualCost (calculateSummary st1) =
       totalActualCost (calculateSummary st2) /\
     averageDailyBudgetRemaining (calculateSummary st1) =
       averageDailyBudgetRemaining (calculateSummary st2)).
Proof.
  split.
  - intros st. reflexivity.
  - intros st1 st2 Hi Hb Hd. unfold calculateSummary. simpl.
    rewrite Hi, Hb, Hd. repeat split.
Qed.

Lemma calculateSummary_pure_witness :
  totalEstimatedCost (calculateSummary trip) =
    totalEstimatedCost (calculateSummary (set_error (Some "late") (calculateSummary trip))) /\
  totalActualCost (calculateSummary trip) =
    totalActualCost (calculateSummary (set_error (Some "late") (calculateSummary trip))) /\
  averageDailyBudgetRemaining (calculateSummary trip) =
    averageDailyBudgetRemaining
      (calculateSummary (set_error (Some "late") (calculateSummary trip))).
Proof.
  exact (proj2 calculateSummary_pure trip
           (set_error (Some "late") (calculateSummary trip)) eq_refl eq_refl eq_refl).
Defined.

(** ** The total budget right after an edit of its input *)

(** The edit stores the parsed amount of the input, a number that is
    neither null nor NaN, 0 for an empty input and for one without a
    readable number; the average it computes is null only when the
    duration is null or not positive. *)
Lemma budget_known_after_edit (st : App) :
  totalBudget (onTotalBudgetInputChange st) =
    Some (amount (parseCurrency (totalBudgetInput st))) /\
  isNaN (amount (parseCurrency (totalBudgetInput st))) = false /\
  (totalBudgetInput st = "" ->
   totalBudget (onTotalBudgetInputChange st) = Some zero) /\
  (isNaN (parseFloat (normalized (totalBudgetInput st))) = true ->
   totalBudget (onTotalBudgetInputChange st) = Some zero) /\
  (averageDailyBudgetRemaining (onTotalBudgetInputChange st) = None ->
   duration st = None \/
   exists d, duration st = Some d /\ ltb zero d = false).
Proof.
  unfold onTotalBudgetInputChange, calculateSummary. simpl.
  split; [reflexivity|]. split.
  { apply nonneg_not_NaN, parseCurrency_amount_nonneg. }
  split; [intros ->; reflexivity|]. split.
  - intros Hn. rewrite parseCurrency_amount.
    destruct (totalBudgetInput st); [reflexivity|].
    destruct (parseFloat _); try discriminate. reflexivity.
  - destruct (duration st) as [d|]; [|now left].
    destruct (ltb zero d) eqn:Hd; [discriminate|].
    intros _. right. now exists d.
Qed.


(** ** C2: cost strings of the stated shape *)

Lemma digit_not_letter (c : ascii) : is_digit c = true -> negb (is_letter c) = true.
Proof. by_cases_on_char c. Qed.

Lemma separator_not_letter (c : ascii) :
  is_separator c = true -> negb (is_letter c) = true.
Proof. by_cases_on_char c. Qed.

Lemma digit_numeric (c : ascii) :
  is_digit c = true -> is_digit c || Ascii.eqb c "," || Ascii.eqb c "." = true.
Proof. intros ->. reflexivity. Qed.

Lemma separator_numeric (c : ascii) :
  is_separator c = true -> is_digit c || Ascii.eqb c "," || Ascii.eqb c "." = true.
Proof. by_cases_on_char c. Qed.

Lemma letter_not_numeric (c : ascii) :
  is_letter c = true ->
  negb (is_digit c || Ascii.eqb c "," || Ascii.eqb c ".") = true.
Proof. by_cases_on_char c. Qed.

Lemma digit_not_period (c : ascii) :
  is_digit c = true -> negb (Ascii.eqb c ".") = true.
Proof. by_cases_on_char c. Qed.

Lemma digit_not_comma (c : ascii) :
  is_digit c = true -> (if Ascii.eqb c "," then "."%char else c) = c.
Proof. by_cases_on_char c. Qed.

Lemma digit_is_digit_or_period (c : ascii) :
  is_digit c = true -> digit_or_period c = true.
Proof. unfold digit_or_period. intros ->. reflexivity. Qed.

Lemma separator_cases (c : ascii) :
  is_separator c = true -> c = "."%char \/ c = ","%char.
Proof.
  unfold is_separator. intros H. apply orb_true_iff in H as [H|H];
    apply Ascii.eqb_eq in H; auto.
Qed.

(** The code: the first letters of the text are those after the space. *)
Lemma match_code_letters (l : string) :
  forall_string is_letter l = true ->
  ((String.length l =? 2)%nat || (String.length l =? 3)%nat) = true ->
  match_code l = Some l.
Proof.
  destruct l as [|a [|b [|c [|d r]]]]; simpl; try discriminate.
  - intros H _. apply andb_true_iff in H as [Ha H].
    apply andb_true_iff in H as [Hb _]. now rewrite Ha, Hb.
  - intros H _. apply andb_true_iff in H as [Ha H].
    apply andb_true_iff in H as [Hb H].
    apply andb_true_iff in H as [Hc _]. now rewrite Ha, Hb, Hc.
Qed.

Lemma parseCurrency_code (s : string) :
  currencyCode (parseCurrency s) =
  match match_code s with
  | Some m => toUpperCase m
  | None => "IDR"
  end.
Proof. destruct s; reflexivity. Qed.

Lemma separators_normalized (s : string) :
  forall_string is_separator s = true ->
  commas_to_periods (remove_periods s) = periods (commas s).
Proof.
  unfold commas_to_periods, remove_periods, commas.
  induction s as [|c s IH]; simpl; [reflexivity|].
  intros H. apply andb_true_iff in H as [Hc Hs].
  destruct (separator_cases c Hc) as [-> | ->]; simpl; rewrite IH; auto.
Qed.

Lemma normalized_cost_text (ct : CostText) :
  well_formed ct = true ->
  normalized (cost_text ct) =
  whole ct ++ periods (commas (separators ct)) ++ decimals ct.
Proof.
  unfold well_formed, cost_text, normalized.
  destruct ct as [d1 sp d2 l]. simpl. intros H.
  repeat (apply andb_true_iff in H as [H ?]).
  change (String " " l) with (" " ++ l).
  unfold keep_numeric. rewrite !filter_string_app.
  rewrite (filter_string_all _ d1), (filter_string_all _ sp),
          (filter_string_all _ d2), (filter_string_none _ l);
    try (eapply forall_string_impl; [|eassumption]);
    auto using digit_numeric, separator_numeric, letter_not_numeric.
  simpl. rewrite append_empty_r.
  unfold remove_periods. rewrite !filter_string_app.
  rewrite (filter_string_all _ d1), (filter_string_all _ d2);
    try (eapply forall_string_impl; [|eassumption]);
    auto using digit_not_period.
  unfold commas_to_periods. rewrite !map_string_app.
  rewrite (map_string_id _ is_digit d1), (map_string_id _ is_digit d2);
    auto using digit_not_comma.
  fold (remove_periods sp). fold (commas_to_periods (remove_periods sp)).
  now rewrite separators_normalized.
Qed.

Lemma span_digits_all (d : string) :
  forall_string is_digit d = true -> span_digits d = (d, "").
Proof.
  induction d as [|c d IH]; simpl; [reflexivity|].
  intros H. apply andb_true_iff in H as [Hc Hd].
  now rewrite Hc, (IH Hd).
Qed.

Lemma span_digits_app (d rest : string) :
  forall_string is_digit d = true ->
  span_digits (d ++ rest) = (d ++ fst (span_digits rest), snd (span_digits rest)).
Proof.
  induction d as [|c d IH]; simpl.
  - intros _. now destruct (span_digits rest).
  - intros H. apply andb_true_iff in H as [Hc Hd].
    now rewrite Hc, (IH Hd).
Qed.

Lemma digits_are_digit_or_period (d : string) :
  forall_string is_digit d = true -> forall_string digit_or_period d = true.
Proof. apply forall_string_impl, digit_is_digit_or_period. Qed.

(** [parseFloat] on a run of digits. *)
Lemma parseFloat_integer (d : string) :
  d <> "" -> forall_string is_digit d = true ->
  parseFloat d = number_value false (digits_value 0 d) 0.
Proof.
  intros Hne Hd. pose proof (digits_are_digit_or_period d Hd) as Hp.
  unfold parseFloat.
  rewrite (skip_white_space_digit_or_period d Hp),
          (split_sign_digit_or_period d Hp), (prefix_Infinity d Hp),
          (span_digits_all d Hd), append_empty_r.
  destruct d as [|c d]; [congruence|]. reflexivity.
Qed.

(** [parseFloat] on digits, a period and digits. *)
Lemma parseFloat_decimal (d1 d2 : string) :
  d1 <> "" ->
  forall_string is_digit d1 = true -> forall_string is_digit d2 = true ->
  parseFloat (d1 ++ String "." d2) =
  number_value false (digits_value 0 (d1 ++ d2)) (- Z.of_nat (String.length d2)).
Proof.
  intros Hne H1 H2.
  assert (Hp : forall_string digit_or_period (d1 ++ String "." d2) = true).
  { rewrite forall_string_app, (digits_are_digit_or_period d1 H1). simpl.
    apply (digits_are_digit_or_period d2 H2). }
  unfold parseFloat.
  rewrite (skip_white_space_digit_or_period _ Hp),
          (split_sign_digit_or_period _ Hp), (prefix_Infinity _ Hp),
          (span_digits_app d1 _ H1).
  change (span_digits (String "." d2)) with (EmptyString, String "." d2).
  cbn [fst snd]. rewrite append_empty_r, (span_digits_all d2 H2).
  destruct d1 as [|c d1]; [congruence|]. reflexivity.
Qed.

(** [parseFloat] stops at a second period: what follows it is not
    read. *)
Lemma parseFloat_two_periods (d1 rest : string) :
  d1 <> "" -> forall_string is_digit d1 = true ->
  parseFloat (d1 ++ String "." (String "." rest)) =
  number_value false (digits_value 0 d1) 0.
Proof.
  intros Hne H1. unfold parseFloat.
  assert (Hh : skip_white_space (d1 ++ String "." (String "." rest))
               = d1 ++ String "." (String "." rest) /\
               split_sign (d1 ++ String "." (String "." rest))
               = (false, d1 ++ String "." (String "." rest)) /\
               prefix "Infinity" (d1 ++ String "." (String "." rest)) = false).
  { destruct d1 as [|c d1]; [congruence|].
    simpl in H1. apply andb_true_iff in H1 as [Hc _].
    pose proof (digit_is_digit_or_period c Hc) as Hp.
    change (String c d1 ++ String "." (String "." rest))
      with (String c (d1 ++ String "." (String "." rest))).
    repeat split.
    - apply skip_white_space_head, Hp.
    - apply split_sign_head, Hp.
    - apply prefix_Infinity_head, Hp. }
  destruct Hh as (-> & -> & ->).
  rewrite (span_digits_app d1 _ H1).
  change (span_digits (String "." (String "." rest)))
    with (EmptyString, String "." (String "." rest)).
  cbn [fst snd].
  change (span_digits (String "." rest)) with (EmptyString, String "." rest).
  rewrite !append_empty_r.
  destruct d1 as [|c d1]; [congruence|]. reflexivity.
Qed.

Lemma well_formed_parts (ct : CostText) :
  well_formed ct = true ->
  whole ct <> "" /\
  forall_string is_digit (whole ct) = true /\
  forall_string is_separator (separators ct) = true /\
  forall_string is_digit (decimals ct) = true /\
  forall_string is_letter (letters ct) = true /\
  ((String.length (letters ct) =? 2)%nat || (String.length (letters ct) =? 3)%nat) = true.
Proof.
  unfold well_formed. intros H.
  repeat (apply andb_true_iff in H as [H ?]).
  apply negb_true_iff, String.eqb_neq in H. auto 10.
Qed.

Lemma cost_text_code (ct : CostText) :
  well_formed ct = true -> match_code (cost_text ct) = Some (letters ct).
Proof.
  intros H. destruct (well_formed_parts ct H) as (_ & H1 & Hs & H2 & Hl & Hn).
  unfold cost_text.
  rewrite !match_code_skip;
    try (eapply forall_string_impl; [|eassumption]);
    auto using digit_not_letter, separator_not_letter.
  now apply match_code_letters.
Qed.

Lemma cost_text_amount (ct : CostText) :
  well_formed ct = true ->
  amount (parseCurrency (cost_text ct)) =
  or_zero (parseFloat (whole ct ++ periods (commas (separators ct)) ++ decimals ct)).
Proof.
  intros H. rewrite parseCurrency_amount, (normalized_cost_text ct H).
  destruct (well_formed_parts ct H) as (Hne & _).
  unfold cost_text. destruct (whole ct); [congruence | reflexivity].
Qed.

(** X5.  With two commas or more among the separators of a cost string
    of the shape [<number>[.,]*<number>* <CODE>] the decimals are not
    read: the amount is that of the first run of digits. *)
Lemma parseCurrency_more_commas (ct : CostText) :
  well_formed ct = true -> (2 <= commas (separators ct))%nat ->
  amount (parseCurrency (cost_text ct)) =
  number_value false (digits_value 0 (whole ct)) 0.
Proof.
  intros H Hc. rewrite (cost_text_amount ct H).
  destruct (well_formed_parts ct H) as (Hne & H1 & _).
  destruct (commas (separators ct)) as [|[|n]]; try lia.
  change (periods (S (S n)) ++ decimals ct)
    with (String "." (String "." (periods n ++ decimals ct))).
  rewrite (parseFloat_two_periods _ _ Hne H1).
  apply or_zero_nonneg_id, number_value_nonneg.
Qed.

(** C2, as the code has it.  For every cost string of the shape
    [<number>[.,]*<number>* <CODE>] with at most one comma among its
    separators, the currency parser returns the binary64 value nearest
    to the intended value (periods group thousands, the comma starts
    the decimals) and the currency code in capitals. *)
Theorem parseCurrency_well_formed (ct : CostText) :
  well_formed ct = true ->
  (commas (separators ct) <= 1)%nat ->
  parsed_as_intended ct.
Proof.
  intros H Hc. split.
  - rewrite (cost_text_amount ct H). unfold intended_value.
    destruct (well_formed_parts ct H) as (Hne & H1 & _ & H2 & _).
    destruct (commas (separators ct)) as [|[|n]]; try lia.
    + change (periods 0 ++ decimals ct) with (decimals ct).
      rewrite parseFloat_integer.
      * apply or_zero_nonneg_id, number_value_nonneg.
      * destruct (whole ct); [congruence | discriminate].
      * now rewrite forall_string_app, H1, H2.
    + change (periods 1 ++ decimals ct) with (String "." (decimals ct)).
      rewrite (parseFloat_decimal _ _ Hne H1 H2).
      apply or_zero_nonneg_id, number_value_nonneg.
  - now rewrite parseCurrency_code, (cost_text_code ct H).
Qed.

Lemma parseCurrency_well_formed_witness :
  well_formed one_comma = true /\
  (commas (separators one_comma) <= 1)%nat /\
  parsed_as_intended one_comma.
Proof.
  split; [reflexivity|]. split; [vm_compute; lia|].
  apply (parseCurrency_well_formed one_comma); [reflexivity | vm_compute; lia].
Defined.

(** C2, as stated, at ["1,,5 USD"]: the string has the stated shape,
    its intended value is 1.5, and the parser returns 1. *)
Lemma parseCurrency_two_commas_counterexample :
  well_formed two_commas = true /\
  cost_text two_commas = "1,,5 USD" /\
  amount (parseCurrency (cost_text two_commas)) = of_Z 1 /\
  intended_value two_commas = number_value false 15 (-1) /\
  ~ parsed_as_intended two_commas.
Proof.
  repeat split; try reflexivity.
  intros [H _]. vm_compute in H. discriminate H.
Qed.

(** ** C4: the guard of the generation workflow *)

Lemma destination_given_iff (st : App) :
  destination_given st = true <-> destination st <> "".
Proof.
  unfold destination_given. destruct (destination st); split;
    congruence || discriminate.
Qed.

Lemma duration_given_iff (st : App) :
  duration_given st = true <-> exists d, duration st = Some d /\ truthy d = true.
Proof.
  unfold duration_given. destruct (duration st) as [d|]; split.
  - intros H. now exists d.
  - intros (d' & [= <-] & H). exact H.
  - discriminate.
  - intros (d' & [=] & _).
Qed.

(** A truthy number is one that is neither 0 nor NaN. *)
Lemma truthy_iff (d : number) :
  truthy d = true <-> isNaN d = false /\ SFeqb d zero = false.
Proof.
  destruct d as [[]|[]| |[] m e]; cbn; split; intros; try tauto;
    try discriminate; destruct H; discriminate.
Qed.

(** C4, as the code has it.  The workflow goes from Idle to Generating,
    and calls the generation client (once), if and only if the
    destination is not empty and the duration is a number other than
    null, 0 and NaN; otherwise it stays in Idle: only the error signal
    changes, to the validation message, and the client is not
    called. *)
Theorem generation_guard {H : Host} (st : App) :
  ((exists st1 prompt,
      enter st = Generating st1 prompt /\ isLoading st1 = true /\
      calls (generateItinerary st) = [prompt])
   <->
   (destination st <> "" /\
    exists d, duration st = Some d /\ isNaN d = false /\ SFeqb d zero = false)) /\
  (~ (destination st <> "" /\
      exists d, duration st = Some d /\ isNaN d = false /\ SFeqb d zero = false) ->
   enter st = StaysIdle (set_error (Some validation_message) st) /\
   final (generateItinerary st) = set_error (Some validation_message) st /\
   calls (generateItinerary st) = []).
Proof.
  assert (Hg : destination_given st && duration_given st = true <->
               destination st <> "" /\
               exists d, duration st = Some d /\ isNaN d = false /\ SFeqb d zero = false).
  { rewrite andb_true_iff, destination_given_iff, duration_given_iff.
    split; intros (Hd & d & Hs & Ht); (split; [exact Hd|]); exists d;
      (split; [exact Hs|]); now apply truthy_iff. }
  unfold generateItinerary, enter. rewrite <- negb_andb.
  destruct (destination_given st && duration_given st) eqn:E; simpl.
  - split; [split|].
    + intros _. now apply Hg.
    + intros _. eexists _, _. repeat split.
    + intros Hn. exfalso. now apply Hn, Hg.
  - split; [split|].
    + intros (st1 & p & [=] & _).
    + intros Hc. apply Hg in Hc. discriminate.
    + intros _. repeat split.
Qed.

Lemma generation_guard_witness :
  (destination kyoto_form <> "" /\
   exists d, duration kyoto_form = Some d /\ isNaN d = false /\ SFeqb d zero = false) /\
  (exists st1 prompt,
     @enter kyoto_host kyoto_form = Generating st1 prompt /\ isLoading st1 = true /\
     calls (@generateItinerary kyoto_host kyoto_form) = [prompt]) /\
  calls (@generateItinerary kyoto_host zero_days_form) = [].
Proof.
  assert (Hk : destination kyoto_form <> "" /\
               exists d, duration kyoto_form = Some d /\
                         isNaN d = false /\ SFeqb d zero = false).
  { split; [discriminate|]. exists (of_Z 3). repeat split. }
  split; [exact Hk|]. split.
  - exact (proj2 (proj1 (@generation_guard kyoto_host kyoto_form)) Hk).
  - apply (proj2 (@generation_guard kyoto_host zero_days_form)).
    intros (_ & d & [= <-] & _ & Hz). discriminate Hz.
Defined.

(** C4, as stated, at the destination Kyoto with a duration of 0 days:
    the destination is not empty and the duration is not null, yet the
    client is not called and the validation message is shown. *)
Lemma generation_guard_zero_days_counterexample :
  destination zero_days_form <> "" /\
  duration zero_days_form <> None /\
  calls (@generateItinerary kyoto_host zero_days_form) = [] /\
  error (final (@generateItinerary kyoto_host zero_days_form)) = Some validation_message /\
  ~ @guard_as_stated kyoto_host zero_days_form.
Proof.
  repeat split; try discriminate.
  intros [_ Hg]. destruct Hg as (st1 & p & He & _); [split; discriminate|].
  discriminate He.
Qed.

(** ** C5: failures of a generation run *)

Lemma enter_cleared {H : Host} (st st1 : App) (prompt : string) :
  enter st = Generating st1 prompt ->
  itinerary st1 = None /\ error st1 = None /\ isLoading st1 = true /\
  totalEstimatedCost st1 = zero /\ totalActualCost st1 = zero /\
  averageDailyBudgetRemaining st1 = None.
Proof.
  unfold enter.
  destruct (negb (destination_given st) || negb (duration_given st));
    [discriminate|].
  intros [= <- _]. repeat split.
Qed.

Lemma generateItinerary_entered {H : Host} (st st1 : App) (prompt : string) :
  enter st = Generating st1 prompt ->
  generateItinerary st =
  {| final := resume st1 (generateContent prompt); calls := [prompt] |}.
Proof. unfold generateItinerary. now intros ->. Qed.

Lemma on_error_malformed (e : JSError) (st : App) :
  isSyntaxError e = true -> includes "JSON" (message e) = true ->
  on_error e st = set_error (Some malformed_message) st.
Proof. unfold on_error. now intros -> ->. Qed.

Lemma on_error_generic (e : JSError) (st : App) :
  isSyntaxError e && includes "JSON" (message e) = false ->
  on_error e st = set_error (Some (generic_message e)) st.
Proof. unfold on_error. now intros ->. Qed.

Lemma failed_after_error (msg : string) (st : App) :
  itinerary st = None ->
  failed_with msg (set_isLoading false (set_error (Some msg) st)).
Proof. intros Hi. repeat split. exact Hi. Qed.

Lemma malformed_not_generic (m : string) :
  malformed_message <> generic_prefix ++ m.
Proof. unfold malformed_message, generic_prefix. simpl. discriminate. Qed.

(** C5.  A run whose response text is not valid JSON, so that
    [JSON.parse] throws a [SyntaxError] (whose message, as in every
    engine, mentions JSON), ends in failure with the malformed-response
    message, which no generic message equals, and without an itinerary.
    Any other error of the call or of the parse ends in failure with
    the generic message, which carries the message of the error when it
    has one and the fallback phrase otherwise. *)
Theorem generation_failure {H : Host} (st st1 : App) (prompt : string) :
  enter st = Generating st1 prompt ->
  (forall text e,
     generateContent prompt = inr (Some text) ->
     JSON_parse (trim text) = inl e ->
     isSyntaxError e = true -> includes "JSON" (message e) = true ->
     failed_with malformed_message (final (generateItinerary st))) /\
  (forall m, malformed_message <> generic_prefix ++ m) /\
  (forall e,
     generateContent prompt = inl e \/
     (exists text, generateContent prompt = inr (Some text) /\
                   JSON_parse (trim text) = inl e) ->
     isSyntaxError e && includes "JSON" (message e) = false ->
     failed_with (generic_message e) (final (generateItinerary st))) /\
  (generateContent prompt = inr None ->
   failed_with (generic_message no_text_error) (final (generateItinerary st))).
Proof.
  intros He. destruct (enter_cleared st st1 prompt He) as (Hi & _).
  rewrite (generateItinerary_entered st st1 prompt He). simpl.
  unfold resume. split; [|split; [|split]].
  - intros text e -> -> Hs Hj. rewrite on_error_malformed by assumption.
    now apply failed_after_error.
  - apply malformed_not_generic.
  - intros e [-> | (text & -> & ->)] Hg; rewrite on_error_generic by assumption;
      now apply failed_after_error.
  - intros ->. now apply failed_after_error.
Qed.

Lemma generation_failure_witness :
  failed_with malformed_message
    (final (@generateItinerary (sample_host (inr (Some "{not json"))) kyoto_form)) /\
  failed_with (generic_prefix ++ "Failed to fetch")
    (final (@generateItinerary
              (sample_host (inl {| isSyntaxError := false; message := "Failed to fetch" |}))
              kyoto_form)) /\
  failed_with (generic_prefix ++ fallback_phrase)
    (final (@generateItinerary
              (sample_host (inl {| isSyntaxError := false; message := "" |}))
              kyoto_form)).
Proof.
  split; [|split].
  - exact (proj1 (@generation_failure (sample_host (inr (Some "{not json")))
                    kyoto_form _ _ eq_refl)
             "{not json" not_json_error eq_refl eq_refl eq_refl eq_refl).
  - exact (proj1 (proj2 (proj2 (@generation_failure (sample_host (inl _))
                                  kyoto_form _ _ eq_refl)))
             {| isSyntaxError := false; message := "Failed to fetch" |}
             (or_introl eq_refl) eq_refl).
  - exact (proj1 (proj2 (proj2 (@generation_failure (sample_host (inl _))
                                  kyoto_form _ _ eq_refl)))
             {| isSyntaxError := false; message := "" |}
             (or_introl eq_refl) eq_refl).
Defined.

(** ** C6: actual costs after a successful run *)

Lemma initialized_actual_costs (parsed : list DailyPlan) :
  Forall (fun a => actualCost a = None)
         (flat_map activities (map initialize_day parsed)).
Proof.
  induction parsed as [|d parsed IH]; simpl; [constructor|].
  apply Forall_app. split; [|exact IH].
  apply Forall_map, Forall_forall. reflexivity.
Qed.

(** C6.  When the response text parses, the run ends with the parsed
    days as the itinerary, no error and the loading flag cleared, and
    every activity of the itinerary has a null actual cost, whatever
    actual cost the parsed activities carried. *)
Theorem actual_costs_start_null {H : Host}
    (st st1 : App) (prompt text : string) (parsed : list DailyPlan) :
  enter st = Generating st1 prompt ->
  generateContent prompt = inr (Some text) ->
  JSON_parse (trim text) = inr parsed ->
  exists it,
    itinerary (final (generateItinerary st)) = Some it /\
    List.length it = List.length parsed /\
    Forall (fun a => actualCost a = None) (all_activities (Some it)) /\
    error (final (generateItinerary st)) = None /\
    isLoading (final (generateItinerary st)) = false.
Proof.
  intros He Hc Hp. destruct (enter_cleared st st1 prompt He) as (_ & Herr & _).
  rewrite (generateItinerary_entered st st1 prompt He). simpl.
  unfold resume. rewrite Hc, Hp.
  exists (map initialize_day parsed). repeat split.
  - apply length_map.
  - apply initialized_actual_costs.
  - exact Herr.
Qed.

Lemma actual_costs_start_null_witness :
  Exists (fun a => actualCost a = Some (of_Z 5)) (all_activities (Some sample_plans)) /\
  exists it,
    itinerary (final (@generateItinerary kyoto_host kyoto_form))
      = Some it /\
    List.length it = 3%nat /\
    Forall (fun a => actualCost a = None) (all_activities (Some it)) /\
    error (final (@generateItinerary kyoto_host kyoto_form))
      = None /\
    isLoading (final (@generateItinerary kyoto_host kyoto_form))
      = false.
Proof.
  split; [left; reflexivity|].
  exact (@actual_costs_start_null kyoto_host
           kyoto_form _ _ sample_reply sample_plans eq_refl eq_refl eq_refl).
Defined.

(** ** Sample runs of the aggregator *)

Example trip_summary :
  totalEstimatedCost (calculateSummary trip) = number_value false 20005 (-1) /\
  totalActualCost (calculateSummary trip) = of_Z 500 /\
  averageDailyBudgetRemaining (calculateSummary trip) = Some (div (of_Z 500) (of_Z 3)).
Proof. repeat split. Qed.

Example budget_edit :
  totalBudget (onTotalBudgetInputChange trip) = Some (of_Z 1000) /\
  totalBudget (onTotalBudgetInputChange initial) = Some zero.
Proof. split; reflexivity. Qed.

(** * Further properties of the code *)

(** ** The currency parser *)

Lemma parseCurrency_more_commas_witness :
  well_formed two_commas = true /\
  (2 <= commas (separators two_commas))%nat /\
  amount (parseCurrency "1,,5 USD") = of_Z 1.
Proof.
  split; [reflexivity|]. split; [vm_compute; lia|].
  apply (parseCurrency_more_commas two_commas); [reflexivity | vm_compute; lia].
Defined.

Lemma match_code_step (c1 c2 : ascii) (r2 : string) :
  match_code (String c1 (String c2 r2)) =
  if is_letter c1 && is_letter c2 then
    match r2 with
    | String c3 _ =>
        if is_letter c3
        then Some (String c1 (String c2 (String c3 EmptyString)))
        else Some (String c1 (String c2 EmptyString))
    | EmptyString => Some (String c1 (String c2 EmptyString))
    end
  else match_code (String c2 r2).
Proof. reflexivity. Qed.

(** A match of the code pattern is two or three letters. *)
Lemma match_code_shape (s m : string) :
  match_code s = Some m ->
  forall_string is_letter m = true /\
  (String.length m = 2 \/ String.length m = 3)%nat.
Proof.
  induction s as [|c1 r1 IH]; [discriminate|].
  destruct r1 as [|c2 r2]; [discriminate|].
  rewrite match_code_step.
  destruct (is_letter c1 && is_letter c2) eqn:E; [|exact IH].
  apply andb_true_iff in E as [E1 E2].
  destruct r2 as [|c3 r3]; [|destruct (is_letter c3) eqn:E3];
    intros [= <-]; simpl; rewrite E1, E2, ?E3; auto.
Qed.

Lemma upper_letter (c : ascii) : is_letter c = true -> is_upper (upper c) = true.
Proof. by_cases_on_char c. Qed.

Lemma map_string_length (f : ascii -> ascii) (s : string) :
  String.length (map_string f s) = String.length s.
Proof. induction s as [|c s IH]; simpl; congruence. Qed.

Lemma forall_string_map (p q : ascii -> bool) (f : ascii -> ascii) (s : string) :
  (forall c, p c = true -> q (f c) = true) ->
  forall_string p s = true -> forall_string q (map_string f s) = true.
Proof.
  intros Hf. induction s as [|c s IH]; simpl; [reflexivity|].
  intros H. apply andb_true_iff in H as [Hc Hs].
  now rewrite (Hf c Hc), (IH Hs).
Qed.

Lemma currencyCode_shape (s : string) :
  forall_string is_upper (currencyCode (parseCurrency s)) = true /\
  (String.length (currencyCode (parseCurrency s)) = 2 \/
   String.length (currencyCode (parseCurrency s)) = 3)%nat.
Proof.
  rewrite parseCurrency_code.
  destruct (match_code s) as [m|] eqn:E; [|split; [reflexivity | now right]].
  destruct (match_code_shape s m E) as [Hl Hn]. unfold toUpperCase. split.
  - revert Hl. apply forall_string_map, upper_letter.
  - now rewrite map_string_length.
Qed.

(** X1.  For every input string, the currency code the parser returns
    is made of two or three capital ASCII letters. *)
Theorem parseCurrency_code_shape (s : string) :
  forall_string is_upper (currencyCode (parseCurrency s)) = true /\
  (String.length (currencyCode (parseCurrency s)) = 2 \/
   String.length (currencyCode (parseCurrency s)) = 3)%nat.
Proof. exact (currencyCode_shape s). Qed.

Lemma forall_string_filter (p : ascii -> bool) (s : string) :
  forall_string p (filter_string p s) = true.
Proof.
  induction s as [|c s IH]; simpl; [reflexivity|].
  destruct (p c) eqn:E; simpl; [now rewrite E|exact IH].
Qed.

Lemma filter_string_ext (p q : ascii -> bool) (s : string) :
  (forall c, p c = q c) -> filter_string p s = filter_string q s.
Proof.
  intros H. induction s as [|c s IH]; simpl; [reflexivity|].
  now rewrite H, IH.
Qed.

Lemma filter_string_filter (p q : ascii -> bool) (s : string) :
  filter_string p (filter_string q s) = filter_string (fun c => q c && p c) s.
Proof.
  induction s as [|c s IH]; simpl; [reflexivity|].
  destruct (q c); simpl; [destruct (p c)|]; simpl; now rewrite IH.
Qed.

Lemma keep_numeric_idempotent (s : string) :
  keep_numeric (keep_numeric s) = keep_numeric s.
Proof. unfold keep_numeric. apply filter_string_all, forall_string_filter. Qed.

Lemma normalized_empty (s : string) : keep_numeric s = "" -> normalized s = "".
Proof. unfold normalized. now intros ->. Qed.

Lemma amount_of_normalized (s : string) :
  amount (parseCurrency s) = or_zero (parseFloat (normalized s)).
Proof. rewrite parseCurrency_amount. destruct s; reflexivity. Qed.

(** X2.  The amount depends only on the digits, commas and periods of
    the input: every other character, a minus sign included, is
    dropped before the number is read. *)
Theorem parseCurrency_amount_of_numeric_part :
  (forall s, amount (parseCurrency s) = amount (parseCurrency (keep_numeric s))) /\
  (forall s, amount (parseCurrency (String "-" s)) = amount (parseCurrency s)).
Proof.
  assert (H : forall s, amount (parseCurrency s)
                        = amount (parseCurrency (keep_numeric s))).
  { intros s. rewrite !amount_of_normalized. unfold normalized.
    now rewrite keep_numeric_idempotent. }
  split; [exact H|]. intros s. rewrite (H (String "-" s)), (H s). reflexivity.
Qed.

Lemma normalized_remove_periods (s : string) :
  normalized (remove_periods s) = normalized s.
Proof.
  unfold normalized, remove_periods, keep_numeric. f_equal.
  rewrite !filter_string_filter. apply filter_string_ext.
  intros c. destruct (negb (Ascii.eqb c ".")), (is_digit c || _ || _); reflexivity.
Qed.

(** X3.  Periods carry no value: removing every period from the input
    leaves the amount unchanged, so ["1.5"] is read as 15. *)
Theorem parseCurrency_periods_ignored (s : string) :
  amount (parseCurrency s) = amount (parseCurrency (remove_periods s)).
Proof. now rewrite !amount_of_normalized, normalized_remove_periods. Qed.

Lemma no_digit_normalized (s : string) :
  no_digit s = true ->
  forall_string (fun c => Ascii.eqb c ".") (normalized s) = true.
Proof.
  unfold no_digit, normalized, commas_to_periods, remove_periods, keep_numeric.
  induction s as [|c s IH]; simpl; [reflexivity|].
  intros H. apply andb_true_iff in H as [Hc Hs]. specialize (IH Hs).
  apply negb_true_iff in Hc. rewrite Hc. simpl.
  destruct (Ascii.eqb c ",") eqn:E1; simpl.
  - apply Ascii.eqb_eq in E1. subst c. simpl. exact IH.
  - destruct (Ascii.eqb c ".") eqn:E2; simpl; rewrite ?E2; simpl; exact IH.
Qed.

Lemma span_digits_periods (t : string) :
  forall_string (fun c => Ascii.eqb c ".") t = true -> span_digits t = ("", t).
Proof.
  destruct t as [|c r]; [reflexivity|]. simpl.
  intros H. apply andb_true_iff in H as [Hc _].
  apply Ascii.eqb_eq in Hc. now subst c.
Qed.

(** [parseFloat] finds no number in a run of periods. *)
Lemma parseFloat_periods (t : string) :
  forall_string (fun c => Ascii.eqb c ".") t = true -> parseFloat t = NaN.
Proof.
  destruct t as [|c r]; [reflexivity|]. simpl forall_string.
  intros H. apply andb_true_iff in H as [Hc Hr].
  apply Ascii.eqb_eq in Hc. subst c. unfold parseFloat.
  rewrite skip_white_space_head, split_sign_head, prefix_Infinity_head
    by reflexivity.
  change (span_digits (String "." r)) with (EmptyString, String "." r).
  cbv beta iota. now rewrite (span_digits_periods r Hr).
Qed.

Lemma no_digit_amount (s : string) :
  no_digit s = true -> amount (parseCurrency s) = zero.
Proof.
  intros H. rewrite amount_of_normalized.
  now rewrite (parseFloat_periods _ (no_digit_normalized s H)).
Qed.

(** X4.  A cost string without any digit, such as ["Gratis"], has the
    amount 0. *)
Theorem parseCurrency_no_digit (s : string) :
  no_digit s = true -> amount (parseCurrency s) = zero.
Proof. exact (no_digit_amount s). Qed.

Lemma parseCurrency_no_digit_witness :
  no_digit "Gratis, -.-" = true /\ amount (parseCurrency "Gratis, -.-") = zero.
Proof.
  split; [reflexivity | apply (parseCurrency_no_digit "Gratis, -.-"); reflexivity].
Defined.

Lemma upper_is_letter (c : ascii) : is_letter (upper c) = is_letter c.
Proof. by_cases_on_char c. Qed.

Lemma upper_idempotent (c : ascii) : upper (upper c) = upper c.
Proof. by_cases_on_char c. Qed.

Lemma upper_numeric (c : ascii) :
  is_digit (upper c) || Ascii.eqb (upper c) "," || Ascii.eqb (upper c) "." =
  is_digit c || Ascii.eqb c "," || Ascii.eqb c ".".
Proof. by_cases_on_char c. Qed.

Lemma upper_numeric_id (c : ascii) :
  is_digit c || Ascii.eqb c "," || Ascii.eqb c "." = true -> upper c = c.
Proof. by_cases_on_char c. Qed.

Lemma match_code_upper (s : string) :
  match_code (map_string upper s) = option_map (map_string upper) (match_code s).
Proof.
  induction s as [|c1 r1 IH]; [reflexivity|].
  destruct r1 as [|c2 r2]; [reflexivity|].
  change (map_string upper (String c1 (String c2 r2)))
    with (String (upper c1) (String (upper c2) (map_string upper r2))).
  rewrite !match_code_step, !upper_is_letter.
  destruct (is_letter c1 && is_letter c2); [|exact IH].
  destruct r2 as [|c3 r3]; [reflexivity|].
  change (map_string upper (String c3 r3))
    with (String (upper c3) (map_string upper r3)).
  cbv beta iota. rewrite upper_is_letter. destruct (is_letter c3); reflexivity.
Qed.

Lemma keep_numeric_upper (s : string) :
  keep_numeric (map_string upper s) = keep_numeric s.
Proof.
  unfold keep_numeric. induction s as [|c s IH]; simpl; [reflexivity|].
  rewrite upper_numeric, IH.
  destruct (is_digit c || Ascii.eqb c "," || Ascii.eqb c ".") eqn:E;
    [now rewrite (upper_numeric_id c E) | reflexivity].
Qed.

Lemma map_string_idempotent (f : ascii -> ascii) (s : string) :
  (forall c, f (f c) = f c) -> map_string f (map_string f s) = map_string f s.
Proof.
  intros H. induction s as [|c s IH]; simpl; [reflexivity|]. now rewrite H, IH.
Qed.

Lemma parseCurrency_upper (s : string) :
  parseCurrency (toUpperCase s) = parseCurrency s.
Proof.
  unfold toUpperCase.
  assert (Ha : amount (parseCurrency (map_string upper s)) = amount (parseCurrency s)).
  { rewrite !amount_of_normalized. unfold normalized.
    now rewrite keep_numeric_upper. }
  assert (Hc : currencyCode (parseCurrency (map_string upper s))
               = currencyCode (parseCurrency s)).
  { rewrite !parseCurrency_code, match_code_upper.
    destruct (match_code s) as [m|]; [|reflexivity]. simpl. unfold toUpperCase.
    apply map_string_idempotent, upper_idempotent. }
  destruct (parseCurrency (map_string upper s)), (parseCurrency s).
  simpl in Ha, Hc. now subst.
Qed.

(** X6.  The parser does not tell the case of ASCII letters: two inputs
    that are equal once their letters are capitals give the same amount
    and the same currency code. *)
Theorem parseCurrency_case_insensitive (s t : string) :
  toUpperCase s = toUpperCase t -> parseCurrency s = parseCurrency t.
Proof.
  intros H. now rewrite <- (parseCurrency_upper s), H, parseCurrency_upper.
Qed.

Lemma parseCurrency_case_insensitive_witness :
  toUpperCase "1.500 jpy" = toUpperCase "1.500 Jpy" /\
  parseCurrency "1.500 jpy" = parseCurrency "1.500 Jpy".
Proof.
  split; [reflexivity|].
  apply (parseCurrency_case_insensitive "1.500 jpy" "1.500 Jpy"); reflexivity.
Defined.

(** ** The budget aggregator *)

Lemma binary_round_aux_not_NaN (p_ e_ : Z) (sx : bool) (m e : Z) (l : location) :
  (0 <= m)%Z -> isNaN (binary_round_aux p_ e_ sx m e l) = false.
Proof.
  intros Hm. unfold binary_round_aux.
  pose proof (shr_fexp_nonneg p_ e_ m e l Hm) as H1.
  destruct (shr_fexp p_ e_ m e l) as [r1 e1]. simpl in H1.
  pose proof (shr_fexp_nonneg p_ e_ _ e1 loc_Exact
                (round_nearest_even_nonneg _ (loc_of_shr_record r1) H1)) as H2.
  destruct (shr_fexp p_ e_ _ e1 loc_Exact) as [r2 e2]. simpl in H2.
  destruct (shr_m r2); [reflexivity | | lia].
  destruct (e2 <=? e_ - p_)%Z; reflexivity.
Qed.

Lemma binary_normalize_not_NaN (p_ e_ m e : Z) :
  isNaN (binary_normalize p_ e_ m e false) = false.
Proof.
  destruct m as [|q|q]; [reflexivity| |]; unfold binary_normalize, binary_round;
    destruct (shl_align _ _ _) as [mz ez]; apply binary_round_aux_not_NaN; lia.
Qed.

Lemma binary_round_nonneg (p_ e_ : Z) (m : positive) (e : Z) :
  nonneg (binary_round p_ e_ false m e) = true.
Proof.
  unfold binary_round. destruct (shl_align _ _ _) as [mz ez].
  apply binary_round_aux_nonneg. lia.
Qed.

(** The sum of two numbers that are not negative is not negative. *)
Lemma add_nonneg (x y : number) :
  nonneg x = true -> nonneg y = true -> nonneg (add x y) = true.
Proof.
  destruct x as [[]|[]| |[] mx ex]; try discriminate;
    destruct y as [[]|[]| |[] my ey]; try discriminate; intros _ _;
    try reflexivity.
  unfold add, SFadd, binary_normalize. simpl cond_Zopp.
  apply binary_round_nonneg.
Qed.

(** Adding 0 to a number that is not negative changes nothing. *)
Lemma add_zero_r (x : number) : nonneg x = true -> add x zero = x.
Proof. destruct x as [[]|[]| |[] mx ex]; try discriminate; reflexivity. Qed.

(** A sum is NaN only if a term is, or if infinities meet. *)
Lemma add_not_NaN (x y : number) :
  isNaN x = false -> isNaN y = false -> is_infinite y = false ->
  isNaN (add x y) = false.
Proof.
  destruct x as [sx|sx| |sx mx ex]; try discriminate;
    destruct y as [sy|sy| |sy my ey]; try discriminate; intros _ _ _;
    try reflexivity.
  - destruct sx, sy; reflexivity.
  - apply binary_normalize_not_NaN.
Qed.

Lemma fold_add_nonneg (l : list number) (acc : number) :
  nonneg acc = true -> Forall (fun x => nonneg x = true) l ->
  nonneg (fold_left add l acc) = true.
Proof.
  revert acc. induction l as [|x l IH]; intros acc Ha Hl; [exact Ha|].
  inversion Hl; subst. simpl. apply IH; [now apply add_nonneg | assumption].
Qed.

Lemma estimated_amounts_nonneg (acts : list Activity) :
  Forall (fun x => nonneg x = true) (estimated_amounts acts).
Proof.
  unfold estimated_amounts. apply Forall_map, Forall_forall.
  intros a _. apply parseCurrency_amount_nonneg.
Qed.

(** X7.  Whatever the itinerary, the total estimated cost is a number
    that is neither NaN nor negative. *)
Theorem total_estimated_not_negative (st : App) :
  nonneg (totalEstimatedCost (calculateSummary st)) = true /\
  isNaN (totalEstimatedCost (calculateSummary st)) = false /\
  ltb (totalEstimatedCost (calculateSummary st)) zero = false.
Proof.
  assert (H : nonneg (totalEstimatedCost (calculateSummary st)) = true).
  { rewrite (proj1 (calculateSummary_totals st)). unfold sum_numbers.
    apply fold_add_nonneg; [reflexivity | apply estimated_amounts_nonneg]. }
  auto using nonneg_not_NaN, nonneg_not_below_zero.
Qed.

Lemma fold_add_not_NaN (l : list number) (acc : number) :
  isNaN acc = false ->
  Forall (fun x => isNaN x = false /\ is_infinite x = false) l ->
  isNaN (fold_left add l acc) = false.
Proof.
  revert acc. induction l as [|x l IH]; intros acc Ha Hl; [exact Ha|].
  inversion Hl as [|? ? [Hn Hi] Hl']; subst. simpl.
  apply IH; [now apply add_not_NaN | assumption].
Qed.

Lemma counted_actual_costs_finite (acts : list Activity) :
  Forall (fun a => forall c, actualCost a = Some c -> is_infinite c = false) acts ->
  Forall (fun x => isNaN x = false /\ is_infinite x = false)
         (counted_actual_costs acts).
Proof.
  unfold counted_actual_costs. induction acts as [|a acts IH]; intros H;
    [constructor|].
  inversion H as [|? ? Ha Hacts]; subst. simpl. apply Forall_app. split; [|auto].
  destruct (actualCost a) as [c|]; [|constructor].
  destruct (isNaN c) eqn:E; constructor; [|constructor].
  split; [exact E | now apply Ha].
Qed.

(** X8.  When no actual cost of the itinerary is infinite, the total
    actual cost is not NaN: the NaN entries are skipped, and the sum
    of the others, even when it overflows, stays a number. *)
Theorem total_actual_not_NaN (st : App) :
  finite_actual_costs (itinerary st) ->
  isNaN (totalActualCost (calculateSummary st)) = false.
Proof.
  intros H. rewrite (proj2 (calculateSummary_totals st)). unfold sum_numbers.
  apply fold_add_not_NaN; [reflexivity|].
  now apply counted_actual_costs_finite.
Qed.

Lemma total_actual_not_NaN_witness :
  finite_actual_costs (itinerary trip) /\
  isNaN (totalActualCost (calculateSummary trip)) = false.
Proof.
  assert (H : finite_actual_costs (itinerary trip)).
  { unfold finite_actual_costs. simpl.
    repeat (constructor; [intros c [= <-]; reflexivity || discriminate|]);
      try constructor.
    all: try (intros c Hc; discriminate Hc). }
  split; [exact H | exact (total_actual_not_NaN trip H)].
Defined.

Lemma fold_add_priced (acts : list Activity) (acc : number) :
  nonneg acc = true ->
  fold_left add
    (estimated_amounts (filter (fun a => negb (no_digit (cost a))) acts)) acc =
  fold_left add (estimated_amounts acts) acc.
Proof.
  revert acc. induction acts as [|a acts IH]; intros acc Ha; [reflexivity|].
  simpl. destruct (no_digit (cost a)) eqn:E; simpl.
  - rewrite (no_digit_amount _ E), (add_zero_r acc Ha). now apply IH.
  - apply IH, add_nonneg; [exact Ha | apply parseCurrency_amount_nonneg].
Qed.

Lemma priced_only_activities (days : list DailyPlan) :
  flat_map activities (priced_only days) =
  filter (fun a => negb (no_digit (cost a))) (flat_map activities days).
Proof.
  induction days as [|d days IH]; simpl; [reflexivity|].
  now rewrite IH, filter_app.
Qed.

(** X9.  Activities whose cost string has no digit contribute nothing
    to the estimate: without them the total estimated cost is the
    same. *)
Theorem free_activities_ignored (st : App) :
  totalEstimatedCost
    (calculateSummary (set_itinerary (option_map priced_only (itinerary st)) st)) =
  totalEstimatedCost (calculateSummary st).
Proof.
  rewrite !(fun s => proj1 (calculateSummary_totals s)). simpl.
  destruct (itinerary st) as [days|]; simpl; [|reflexivity].
  rewrite priced_only_activities. unfold sum_numbers.
  now apply fold_add_priced.
Qed.

(** ** The generation workflow *)

Lemma enter_inputs {H : Host} (st st1 : App) (prompt : string) :
  enter st = Generating st1 prompt ->
  destination st1 = destination st /\ duration st1 = duration st /\
  interests st1 = interests st /\ totalBudgetInput st1 = totalBudgetInput st /\
  totalBudget st1 = totalBudget st.
Proof.
  unfold enter.
  destruct (negb (destination_given st) || negb (duration_given st));
    [discriminate|].
  intros [= <- _]. repeat split.
Qed.

Lemma on_error_fields (e : JSError) (st : App) :
  exists msg, on_error e st = set_error (Some msg) st.
Proof. unfold on_error. destruct (_ && _); eexists; reflexivity. Qed.

(** What [resume] makes of the state the run entered with. *)
Lemma resume_cases {H : Host} (st : App) (response : JSError + option string) :
  (exists msg, resume st response = set_isLoading false (set_error (Some msg) st)) \/
  (exists parsed,
     resume st response =
     set_isLoading false
       (calculateSummary (set_itinerary (Some (map initialize_day parsed)) st))).
Proof.
  unfold resume. destruct response as [e|[text|]].
  - left. destruct (on_error_fields e st) as [msg ->]. now exists msg.
  - destruct (JSON_parse (trim text)) as [e|parsed].
    + left. destruct (on_error_fields e st) as [msg ->]. now exists msg.
    + right. now exists parsed.
  - left. destruct (on_error_fields no_text_error st) as [msg ->]. now exists msg.
Qed.



(** X11.  No run changes what the user entered: the destination, the
    duration, the interests, the budget input and the total budget are
    after the run what they were before it, whatever the client and
    the parser do. *)
Theorem generation_keeps_inputs {H : Host} (st : App) :
  destination (final (generateItinerary st)) = destination st /\
  duration (final (generateItinerary st)) = duration st /\
  interests (final (generateItinerary st)) = interests st /\
  totalBudgetInput (final (generateItinerary st)) = totalBudgetInput st /\
  totalBudget (final (generateItinerary st)) = totalBudget st.
Proof.
  unfold generateItinerary. destruct (enter st) as [st'|st1 prompt] eqn:He.
  - unfold enter in He.
    destruct (negb (destination_given st) || negb (duration_given st));
      [|discriminate].
    injection He as <-. repeat split.
  - destruct (enter_inputs st st1 prompt He) as (<- & <- & <- & <- & <-).
    cbn [final].
    destruct (resume_cases st1 (generateContent prompt)) as [[msg ->] | [parsed ->]];
      repeat split.
Qed.

Lemma counted_initialized (parsed : list DailyPlan) :
  counted_actual_costs (flat_map activities (map initialize_day parsed)) = [].
Proof.
  unfold counted_actual_costs.
  induction parsed as [|d parsed IH]; simpl; [reflexivity|].
  rewrite flat_map_app, IH, app_nil_r.
  induction (activities d) as [|a acts IHa]; simpl; [reflexivity | exact IHa].
Qed.

Lemma estimated_initialized (parsed : list DailyPlan) :
  estimated_amounts (flat_map activities (map initialize_day parsed)) =
  estimated_amounts (flat_map activities parsed).
Proof.
  unfold estimated_amounts.
  induction parsed as [|d parsed IH]; simpl; [reflexivity|].
  rewrite !map_app, IH, map_map. reflexivity.
Qed.

Lemma calculateSummary_average (st : App) :
  averageDailyBudgetRemaining (calculateSummary st) =
  match totalBudget st, duration st with
  | Some b, Some d =>
      if ltb zero d
      then Some (div (sub b (totalActualCost (calculateSummary st))) d)
      else None
  | _, _ => None
  end.
Proof. reflexivity. Qed.

(** Subtracting 0 changes nothing. *)
Lemma sub_zero_r (b : number) : sub b zero = b.
Proof. destruct b as [[]|[]| |[] m e]; reflexivity. Qed.

(** X12.  Right after a successful generation nothing is spent yet: the
    total actual cost is 0, the total estimated cost is the sum of the
    parsed amounts of the cost strings of the response, and the average
    remaining per day is the whole budget divided by the duration when
    the budget is known and the duration is positive, null otherwise. *)
Theorem summary_after_generation {H : Host}
    (st st1 : App) (prompt text : string) (parsed : list DailyPlan) :
  enter st = Generating st1 prompt ->
  generateContent prompt = inr (Some text) ->
  JSON_parse (trim text) = inr parsed ->
  totalActualCost (final (generateItinerary st)) = zero /\
  totalEstimatedCost (final (generateItinerary st)) =
    sum_numbers (estimated_amounts (all_activities (Some parsed))) /\
  averageDailyBudgetRemaining (final (generateItinerary st)) =
    match totalBudget st, duration st with
    | Some b, Some d => if ltb zero d then Some (div b d) else None
    | _, _ => None
    end.
Proof.
  intros He Hc Hp.
  destruct (enter_inputs st st1 prompt He) as (_ & Hd & _ & _ & Hb).
  rewrite (generateItinerary_entered st st1 prompt He). cbn [final].
  unfold resume. rewrite Hc, Hp.
  set (st2 := set_itinerary (Some (map initialize_day parsed)) st1).
  change (totalActualCost (set_isLoading false (calculateSummary st2)))
    with (totalActualCost (calculateSummary st2)).
  change (totalEstimatedCost (set_isLoading false (calculateSummary st2)))
    with (totalEstimatedCost (calculateSummary st2)).
  change (averageDailyBudgetRemaining (set_isLoading false (calculateSummary st2)))
    with (averageDailyBudgetRemaining (calculateSummary st2)).
  assert (Ha : totalActualCost (calculateSummary st2) = zero).
  { rewrite (proj2 (calculateSummary_totals st2)). simpl.
    now rewrite counted_initialized. }
  split; [exact Ha|]. split.
  - rewrite (proj1 (calculateSummary_totals st2)). simpl.
    now rewrite estimated_initialized.
  - rewrite calculateSummary_average, Ha.
    change (totalBudget st2) with (totalBudget st1).
    change (duration st2) with (duration st1). rewrite Hb, Hd.
    destruct (totalBudget st) as [b|], (duration st) as [d|]; try reflexivity.
    now rewrite sub_zero_r.
Qed.

Lemma summary_after_generation_witness :
  totalActualCost (final (@generateItinerary kyoto_host kyoto_form)) = zero /\
  totalEstimatedCost (final (@generateItinerary kyoto_host kyoto_form)) =
    sum_numbers (estimated_amounts (all_activities (Some sample_plans))) /\
  averageDailyBudgetRemaining (final (@generateItinerary kyoto_host kyoto_form)) = None.
Proof.
  exact (@summary_after_generation kyoto_host kyoto_form _ _ sample_reply
           sample_plans eq_refl eq_refl eq_refl).
Defined.

(** ** White space around the response *)

Lemma rev_string_acc (s acc : string) :
  rev_string acc s = rev_string "" s ++ acc.
Proof.
  revert acc. induction s as [|c s IH]; intros acc; [reflexivity|].
  simpl. rewrite (IH (String c acc)), (IH (String c "")).
  generalize (rev_string "" s). intros r.
  induction r as [|a r IHr]; simpl; congruence.
Qed.

Lemma rev_string_app (x y : string) :
  rev_string "" (x ++ y) = rev_string "" y ++ rev_string "" x.
Proof.
  induction x as [|c x IH]; simpl; [now rewrite append_empty_r|].
  rewrite (rev_string_acc (x ++ y)), (rev_string_acc x), IH.
  generalize (rev_string "" y). intros r.
  induction r as [|a r IHr]; simpl; congruence.
Qed.

Lemma white_space_only_rev (w : string) :
  white_space_only w = true -> white_space_only (rev_string "" w) = true.
Proof.
  unfold white_space_only. induction w as [|c w IH]; [reflexivity|].
  simpl. intros Hw. apply andb_true_iff in Hw as [Hc Hw].
  rewrite rev_string_acc, forall_string_app, (IH Hw). simpl. now rewrite Hc.
Qed.

Lemma skip_white_space_app_l (w x : string) :
  white_space_only w = true -> skip_white_space (w ++ x) = skip_white_space x.
Proof.
  unfold white_space_only. induction w as [|c w IH]; [reflexivity|].
  simpl. intros Hw. apply andb_true_iff in Hw as [Hc Hw]. rewrite Hc. auto.
Qed.

Lemma skip_white_space_app_r (x w : string) :
  skip_white_space (x ++ w) =
  match skip_white_space x with
  | EmptyString => skip_white_space w
  | u => u ++ w
  end.
Proof.
  induction x as [|c x IH]; [reflexivity|]. simpl.
  destruct (is_white_space c); [exact IH | reflexivity].
Qed.

(** [trim] drops the white space on both sides. *)
Lemma trim_white_space (w1 t w2 : string) :
  white_space_only w1 = true -> white_space_only w2 = true ->
  trim (w1 ++ t ++ w2) = trim t.
Proof.
  intros H1 H2. unfold trim.
  rewrite (skip_white_space_app_l w1 _ H1), skip_white_space_app_r.
  destruct (skip_white_space t) as [|c u] eqn:E.
  - rewrite <- (append_empty_r w2), (skip_white_space_app_l w2 "" H2). reflexivity.
  - rewrite rev_string_app,
      (skip_white_space_app_l _ _ (white_space_only_rev w2 H2)). reflexivity.
Qed.

(** X13.  White space around the response text does not matter: the
    run ends in the same state with and without it. *)
Theorem response_white_space_ignored {H : Host}
    (st : App) (w1 t w2 : string) :
  white_space_only w1 = true -> white_space_only w2 = true ->
  resume st (inr (Some (w1 ++ t ++ w2))) = resume st (inr (Some t)).
Proof.
  intros H1 H2. unfold resume. now rewrite (trim_white_space w1 t w2 H1 H2).
Qed.

Lemma response_white_space_ignored_witness :
  @resume kyoto_host kyoto_form (inr (Some sample_reply)) =
  @resume kyoto_host kyoto_form (inr (Some sample_json)).
Proof.
  exact (@response_white_space_ignored kyoto_host kyoto_form
           "  " sample_json (String "010"%char EmptyString) eq_refl eq_refl).
Defined.

(** ** The currency formatter *)

Lemma upper_is_a_letter (c : ascii) : is_upper c = true -> is_letter c = true.
Proof. by_cases_on_char c. Qed.

Lemma total_estimated_nonneg (st : App) :
  nonneg (totalEstimatedCost (calculateSummary st)) = true.
Proof.
  rewrite (proj1 (calculateSummary_totals st)). unfold sum_numbers.
  apply fold_add_nonneg; [reflexivity | apply estimated_amounts_nonneg].
Qed.

(** X14.  The total estimated cost is never shown as N/A: under the
    default code it is always the text the number format gives for
    IDR. *)
Theorem total_estimated_display {H : Host} {L : Locale} (st : App) :
  formatCurrency (Some (totalEstimatedCost (calculateSummary st))) None =
  NumberFormat_format "IDR" (totalEstimatedCost (calculateSummary st)).
Proof.
  unfold formatCurrency.
  now rewrite (nonneg_not_NaN _ (total_estimated_nonneg st)).
Qed.

(** X15.  The amount and the code parsed from a cost string are never
    shown as N/A: a code of three letters gives the text of the number
    format, and a code of two letters, which the number format
    rejects, gives the plain text of the amount, a space and the
    code. *)
Theorem parsed_cost_display {H : Host} {L : Locale} (s : string) :
  formatCurrency (Some (amount (parseCurrency s)))
                 (Some (currencyCode (parseCurrency s))) =
  if (String.length (currencyCode (parseCurrency s)) =? 3)%nat
  then NumberFormat_format (currencyCode (parseCurrency s)) (amount (parseCurrency s))
  else Number_toString (amount (parseCurrency s)) ++ " " ++ currencyCode (parseCurrency s).
Proof.
  unfold formatCurrency, well_formed_currency_code.
  rewrite (nonneg_not_NaN _ (parseCurrency_amount_nonneg s)).
  destruct (currencyCode_shape s) as [Hu _].
  rewrite (forall_string_impl is_upper is_letter _ upper_is_a_letter Hu).
  now rewrite andb_true_r.
Qed.

(** ** The search link *)

Ltac div_mod_lia := Z.to_euclidean_division_equations; lia.

Lemma below_16 (P : N -> Prop) :
  (forall k : nat, (k < 16)%nat -> P (N.of_nat k)) ->
  forall n, (n < 16)%N -> P n.
Proof.
  intros H n Hn. rewrite <- (N2Nat.id n). apply H. lia.
Qed.

Lemma hex_digit_safe (n : N) : (n < 16)%N -> uri_safe (hex_digit n) = true.
Proof.
  revert n. apply below_16. intros k Hk.
  do 16 (destruct k as [|k]; [reflexivity|]). lia.
Qed.

Lemma hex_val_hex_digit (n : N) : (n < 16)%N -> hex_val (hex_digit n) = n.
Proof.
  revert n. apply below_16. intros k Hk.
  do 16 (destruct k as [|k]; [reflexivity|]). lia.
Qed.

Lemma byte_of_percent (b : N) :
  (b < 256)%N -> byte_of (hex_digit (b / 16)) (hex_digit (b mod 16)) = b.
Proof.
  intros Hb. unfold byte_of.
  rewrite !hex_val_hex_digit; zify; div_mod_lia.
Qed.

Lemma percent_safe (b : N) :
  (b < 256)%N -> forall_string uri_safe (percent b) = true.
Proof.
  intros Hb. unfold percent. cbn [forall_string].
  rewrite !hex_digit_safe; [reflexivity | |]; zify; div_mod_lia.
Qed.

Lemma escape_code_point_safe (cp : N) :
  (cp < 1114112)%N -> forall_string uri_safe (escape_code_point cp) = true.
Proof.
  intros Hcp. unfold escape_code_point.
  destruct (cp <? 128)%N eqn:E1.
  - destruct (is_unreserved (ascii_of_N cp)) eqn:Eu.
    + cbn [forall_string]. unfold uri_safe. now rewrite Eu.
    + apply N.ltb_lt in E1. apply percent_safe. lia.
  - apply N.ltb_ge in E1. destruct (cp <? 2048)%N eqn:E2.
    + apply N.ltb_lt in E2.
      rewrite forall_string_app, !percent_safe; [reflexivity | |]; zify; div_mod_lia.
    + apply N.ltb_ge in E2. destruct (cp <? 65536)%N eqn:E3.
      * apply N.ltb_lt in E3.
        rewrite !forall_string_app, !percent_safe; [reflexivity | | |];
          zify; div_mod_lia.
      * apply N.ltb_ge in E3.
        rewrite !forall_string_app, !percent_safe; [reflexivity | | | |];
          zify; div_mod_lia.
Qed.

Lemma unreserved_not_percent (c : ascii) :
  is_unreserved c = true -> Ascii.eqb c "%" = false.
Proof. destruct c as [[] [] [] [] [] [] [] []]; vm_compute; intros; congruence. Qed.

Lemma unescape_unreserved (c : ascii) (rest : string) :
  is_unreserved c = true ->
  unescape (String c rest) = code c :: unescape rest.
Proof. intros H. cbn [unescape]. now rewrite (unreserved_not_percent c H). Qed.

Lemma unescape_one (b : N) (rest : string) :
  (b < 128)%N -> unescape (percent b ++ rest) = b :: unescape rest.
Proof.
  intros Hb. unfold percent. cbn [append unescape]. 
  change (Ascii.eqb "%" "%") with true. cbv iota.
  rewrite byte_of_percent by lia.
  apply N.ltb_lt in Hb. now rewrite Hb.
Qed.

Lemma unescape_two (b1 b2 : N) (rest : string) :
  (128 <= b1 < 224)%N -> (b2 < 256)%N ->
  unescape (percent b1 ++ percent b2 ++ rest) =
  ((b1 - 192) * 64 + (b2 - 128))%N :: unescape rest.
Proof.
  intros H1 H2. unfold percent. cbn [append unescape].
  change (Ascii.eqb "%" "%") with true. cbv iota.
  rewrite !byte_of_percent by lia.
  replace (b1 <? 128)%N with false by (symmetry; apply N.ltb_ge; lia).
  replace (b1 <? 224)%N with true by (symmetry; apply N.ltb_lt; lia).
  reflexivity.
Qed.

Lemma unescape_three (b1 b2 b3 : N) (rest : string) :
  (224 <= b1 < 240)%N -> (b2 < 256)%N -> (b3 < 256)%N ->
  unescape (percent b1 ++ percent b2 ++ percent b3 ++ rest) =
  ((b1 - 224) * 4096 + (b2 - 128) * 64 + (b3 - 128))%N :: unescape rest.
Proof.
  intros H1 H2 H3. unfold percent. cbn [append unescape].
  change (Ascii.eqb "%" "%") with true. cbv iota.
  rewrite !byte_of_percent by lia.
  replace (b1 <? 128)%N with false by (symmetry; apply N.ltb_ge; lia).
  replace (b1 <? 224)%N with false by (symmetry; apply N.ltb_ge; lia).
  replace (b1 <? 240)%N with true by (symmetry; apply N.ltb_lt; lia).
  reflexivity.
Qed.

Lemma unescape_four (b1 b2 b3 b4 : N) (rest : string) :
  (240 <= b1 < 256)%N -> (b2 < 256)%N -> (b3 < 256)%N -> (b4 < 256)%N ->
  unescape (percent b1 ++ percent b2 ++ percent b3 ++ percent b4 ++ rest) =
  let v := ((b1 - 240) * 262144 + (b2 - 128) * 4096
            + (b3 - 128) * 64 + (b4 - 128) - 65536)%N in
  (55296 + v / 1024)%N :: (56320 + v mod 1024)%N :: unescape rest.
Proof.
  intros H1 H2 H3 H4. unfold percent. cbn [append unescape].
  change (Ascii.eqb "%" "%") with true. cbv iota.
  rewrite !byte_of_percent by lia.
  replace (b1 <? 128)%N with false by (symmetry; apply N.ltb_ge; lia).
  replace (b1 <? 224)%N with false by (symmetry; apply N.ltb_ge; lia).
  replace (b1 <? 240)%N with false by (symmetry; apply N.ltb_ge; lia).
  reflexivity.
Qed.

Lemma string_app_assoc (x y z : string) : (x ++ y) ++ z = x ++ y ++ z.
Proof. induction x as [|c x IH]; simpl; congruence. Qed.

Lemma high_surrogate_range (u : N) :
  is_high_surrogate u = true <-> (55296 <= u <= 56319)%N.
Proof. unfold is_high_surrogate. rewrite andb_true_iff, !N.leb_le. tauto. Qed.

Lemma low_surrogate_range (v : N) :
  is_low_surrogate v = true <-> (56320 <= v <= 57343)%N.
Proof. unfold is_low_surrogate. rewrite andb_true_iff, !N.leb_le. tauto. Qed.

(** Reading back the escape of a code unit gives the code unit. *)
Lemma unescape_escape (cp : N) (rest : string) :
  (cp < 65536)%N ->
  unescape (escape_code_point cp ++ rest) = cp :: unescape rest.
Proof.
  intros Hcp. unfold escape_code_point.
  destruct (cp <? 128)%N eqn:E1.
  - apply N.ltb_lt in E1. destruct (is_unreserved (ascii_of_N cp)) eqn:Eu.
    + change (String (ascii_of_N cp) "" ++ rest) with (String (ascii_of_N cp) rest).
      rewrite (unescape_unreserved _ _ Eu). unfold code.
      rewrite N_ascii_embedding by lia. reflexivity.
    + now apply unescape_one.
  - apply N.ltb_ge in E1. destruct (cp <? 2048)%N eqn:E2.
    + apply N.ltb_lt in E2. rewrite string_app_assoc, unescape_two.
      * f_equal. zify; div_mod_lia.
      * zify; div_mod_lia.
      * zify; div_mod_lia.
    + apply N.ltb_ge in E2. apply N.ltb_lt in Hcp as E3. rewrite E3.
      rewrite !string_app_assoc, unescape_three.
      * f_equal. zify; div_mod_lia.
      * zify; div_mod_lia.
      * zify; div_mod_lia.
      * zify; div_mod_lia.
Qed.

(** Reading back the escape of a surrogate pair gives the pair. *)
Lemma unescape_escape_pair (u v : N) (rest : string) :
  is_high_surrogate u = true -> is_low_surrogate v = true ->
  unescape (escape_code_point (pair_code_point u v) ++ rest) =
  u :: v :: unescape rest.
Proof.
  intros Hu Hv. apply high_surrogate_range in Hu. apply low_surrogate_range in Hv.
  unfold escape_code_point.
  set (cp := pair_code_point u v).
  assert (Hcp : (65536 <= cp < 1114112)%N) by (unfold cp, pair_code_point; lia).
  replace (cp <? 128)%N with false by (symmetry; apply N.ltb_ge; lia).
  replace (cp <? 2048)%N with false by (symmetry; apply N.ltb_ge; lia).
  replace (cp <? 65536)%N with false by (symmetry; apply N.ltb_ge; lia).
  rewrite !string_app_assoc, unescape_four.
  - cbv zeta. unfold cp, pair_code_point in *.
    f_equal; [|f_equal]; zify; div_mod_lia.
  - zify; div_mod_lia.
  - zify; div_mod_lia.
  - zify; div_mod_lia.
  - zify; div_mod_lia.
Qed.

(** The ways [encodeURIComponent] builds its result. *)
Lemma encodeURIComponent_cases (P : list N -> string -> Prop) :
  P [] "" ->
  (forall u r e,
     is_low_surrogate u = false -> is_high_surrogate u = false ->
     encodeURIComponent r = Some e -> P r e ->
     P (u :: r) (escape_code_point u ++ e)) ->
  (forall u v r e,
     is_high_surrogate u = true -> is_low_surrogate v = true ->
     encodeURIComponent r = Some e -> P r e ->
     P (u :: v :: r) (escape_code_point (pair_code_point u v) ++ e)) ->
  forall q e, encodeURIComponent q = Some e -> P q e.
Proof.
  intros H0 H1 H2 q.
  assert (H : forall n q, (List.length q <= n)%nat ->
                          forall e, encodeURIComponent q = Some e -> P q e).
  { clear q. induction n as [|n IH]; intros q Hn e He.
    - destruct q; [|simpl in Hn; lia]. injection He as <-. exact H0.
    - destruct q as [|u r]; [injection He as <-; exact H0|].
      cbn [encodeURIComponent] in He.
      destruct (is_low_surrogate u) eqn:El; [discriminate|].
      destruct (is_high_surrogate u) eqn:Eh.
      + destruct r as [|v r']; [discriminate|].
        destruct (is_low_surrogate v) eqn:Ev; [|discriminate].
        destruct (encodeURIComponent r') as [e'|] eqn:Er; [|discriminate].
        injection He as <-. apply H2; auto. apply IH; [simpl in Hn; lia | exact Er].
      + destruct (encodeURIComponent r) as [e'|] eqn:Er; [|discriminate].
        injection He as <-. apply H1; auto. apply IH; [simpl in Hn; lia | exact Er]. }
  exact (H (List.length q) q (le_n _)).
Qed.

Lemma encodeURIComponent_safe (q : list N) (e : string) :
  encodeURIComponent q = Some e ->
  Forall (fun u => is_code_unit u = true) q ->
  forall_string uri_safe e = true.
Proof.
  revert q e. apply (encodeURIComponent_cases
    (fun q e => Forall (fun u => is_code_unit u = true) q ->
                forall_string uri_safe e = true)).
  - reflexivity.
  - intros u r e _ _ _ IH Hq. inversion Hq as [|? ? Hu Hr]; subst.
    apply N.ltb_lt in Hu.
    rewrite forall_string_app, escape_code_point_safe, (IH Hr) by lia. reflexivity.
  - intros u v r e Hu Hv _ IH Hq.
    inversion Hq as [|? ? _ Hq']; subst. inversion Hq' as [|? ? _ Hr]; subst.
    apply high_surrogate_range in Hu. apply low_surrogate_range in Hv.
    rewrite forall_string_app, escape_code_point_safe, (IH Hr);
      [reflexivity | unfold pair_code_point; lia].
Qed.

Lemma unescape_encoded (q : list N) (e : string) :
  encodeURIComponent q = Some e ->
  Forall (fun u => is_code_unit u = true) q ->
  unescape e = q.
Proof.
  revert q e. apply (encodeURIComponent_cases
    (fun q e => Forall (fun u => is_code_unit u = true) q -> unescape e = q)).
  - reflexivity.
  - intros u r e _ _ _ IH Hq. inversion Hq as [|? ? Hu Hr]; subst.
    apply N.ltb_lt in Hu. now rewrite unescape_escape, (IH Hr).
  - intros u v r e Hu Hv _ IH Hq.
    inversion Hq as [|? ? _ Hq']; subst. inversion Hq' as [|? ? _ Hr]; subst.
    now rewrite unescape_escape_pair, (IH Hr).
Qed.

(** [encodeURIComponent] throws exactly at a surrogate without its
    pair. *)
Lemma encodeURIComponent_throws (q : list N) :
  (well_paired q = true -> exists e, encodeURIComponent q = Some e) /\
  (well_paired q = false -> encodeURIComponent q = None).
Proof.
  assert (H : forall n q, (List.length q <= n)%nat ->
            (well_paired q = true -> exists e, encodeURIComponent q = Some e) /\
            (well_paired q = false -> encodeURIComponent q = None)).
  { clear q. induction n as [|n IH]; intros q Hn.
    - destruct q; [|simpl in Hn; lia]. split; [now exists ""|discriminate].
    - destruct q as [|u r]; [split; [now exists ""|discriminate]|].
      cbn [well_paired encodeURIComponent].
      destruct (is_low_surrogate u); [split; [discriminate|reflexivity]|].
      destruct (is_high_surrogate u).
      + destruct r as [|v r']; [split; [discriminate|reflexivity]|].
        destruct (is_low_surrogate v); [|split; [discriminate|reflexivity]].
        destruct (IH r' ltac:(simpl in Hn; lia)) as [Ht Hf]. simpl. split.
        * intros Hw. destruct (Ht Hw) as [e ->]. now eexists.
        * intros Hw. now rewrite (Hf Hw).
      + destruct (IH r ltac:(simpl in Hn; lia)) as [Ht Hf]. split.
        * intros Hw. destruct (Ht Hw) as [e ->]. now eexists.
        * intros Hw. now rewrite (Hf Hw). }
  exact (H (List.length q) q (le_n _)).
Qed.

Lemma append_cancel_l (x a b : string) : x ++ a = x ++ b -> a = b.
Proof.
  induction x as [|c x IH]; simpl; [auto|]. intros [= E]. auto.
Qed.

Lemma uri_safe_not_special (c : ascii) :
  uri_safe c = true -> negb (one_of " &#=?+/:;,@$" c) = true.
Proof. destruct c as [[] [] [] [] [] [] [] []]; vm_compute; intros; congruence. Qed.

(** X16.  The search link tells queries apart: two different queries,
    each a string of UTF-16 code units that [encodeURIComponent]
    accepts, never open the same address. *)
Theorem openGoogleSearch_injective (q1 q2 : list N) (o1 o2 : Opened) :
  Forall (fun u => is_code_unit u = true) q1 ->
  Forall (fun u => is_code_unit u = true) q2 ->
  openGoogleSearch q1 = Some o1 -> openGoogleSearch q2 = Some o2 ->
  q1 <> q2 -> url o1 <> url o2.
Proof.
  unfold openGoogleSearch. intros H1 H2 E1 E2 Hne Hu. apply Hne.
  destruct (encodeURIComponent q1) as [e1|] eqn:Eq1; [|discriminate].
  destruct (encodeURIComponent q2) as [e2|] eqn:Eq2; [|discriminate].
  injection E1 as <-. injection E2 as <-. cbn [url] in Hu.
  apply (append_cancel_l search_prefix) in Hu. subst e2.
  now rewrite <- (unescape_encoded q1 e1 Eq1 H1), (unescape_encoded q2 e1 Eq2 H2).
Qed.

Lemma openGoogleSearch_injective_witness :
  latin_query <> kanji_query /\
  "https://www.google.com/search?q=Kinkaku-ji%20harga%20tiket%20%26%20jam" <>
  "https://www.google.com/search?q=%E9%87%91%E9%96%A3%E5%AF%BA%20%F0%9F%98%80".
Proof.
  split; [discriminate|].
  apply (openGoogleSearch_injective latin_query kanji_query
           {| url := "https://www.google.com/search?q=Kinkaku-ji%20harga%20tiket%20%26%20jam";
              target := "_blank" |}
           {| url := "https://www.google.com/search?q=%E9%87%91%E9%96%A3%E5%AF%BA%20%F0%9F%98%80";
              target := "_blank" |}).
  - repeat constructor.
  - repeat constructor.
  - reflexivity.
  - reflexivity.
  - discriminate.
Defined.

(** X17.  For a query in which a surrogate has no pair nothing is
    opened: [encodeURIComponent] throws first.  For every other query
    the address opened, in a new tab, is the search address followed by
    an escaped text that holds unreserved characters and [%] escapes
    only, so none of its characters is a space or one of
    [&#=?+/:;,@$]: a query cannot add a parameter to the address. *)
Theorem openGoogleSearch_safe (q : list N) :
  Forall (fun u => is_code_unit u = true) q ->
  (well_paired q = false -> openGoogleSearch q = None) /\
  (well_paired q = true ->
   exists e,
     openGoogleSearch q = Some {| url := search_prefix ++ e; target := "_blank" |} /\
     forall_string uri_safe e = true /\
     forall_string (fun c => negb (one_of " &#=?+/:;,@$" c)) e = true).
Proof.
  intros Hq. destruct (encodeURIComponent_throws q) as [Ht Hf].
  unfold openGoogleSearch. split.
  - intros Hw. now rewrite (Hf Hw).
  - intros Hw. destruct (Ht Hw) as [e He]. exists e. rewrite He.
    split; [reflexivity|].
    pose proof (encodeURIComponent_safe q e He Hq) as Hs. split; [exact Hs|].
    revert Hs. apply forall_string_impl, uri_safe_not_special.
Qed.

Lemma openGoogleSearch_safe_witness :
  openGoogleSearch broken_query = None /\
  exists e,
    openGoogleSearch kanji_query =
      Some {| url := search_prefix ++ e; target := "_blank" |} /\
    forall_string uri_safe e = true /\
    forall_string (fun c => negb (one_of " &#=?+/:;,@$" c)) e = true.
Proof.
  split.
  - apply (proj1 (openGoogleSearch_safe broken_query ltac:(repeat constructor))).
    reflexivity.
  - apply (proj2 (openGoogleSearch_safe kanji_query ltac:(repeat constructor))).
    reflexivity.
Defined.

Example search_links :
  openGoogleSearch latin_query =
    Some {| url := "https://www.google.com/search?q=Kinkaku-ji%20harga%20tiket%20%26%20jam";
            target := "_blank" |} /\
  openGoogleSearch kanji_query =
    Some {| url := "https://www.google.com/search?q=%E9%87%91%E9%96%A3%E5%AF%BA%20%F0%9F%98%80";
            target := "_blank" |}.
Proof. split; reflexivity. Qed.

(** ** Grouped amounts *)

Lemma remove_periods_digits (w : string) :
  forall_string digit_or_period w = true ->
  forall_string is_digit (remove_periods w) = true.
Proof.
  unfold remove_periods, digit_or_period.
  induction w as [|c w IH]; simpl; [reflexivity|].
  intros H. apply andb_true_iff in H as [Hc Hw].
  destruct (Ascii.eqb c ".") eqn:E; simpl; [auto|].
  rewrite orb_false_r in Hc. now rewrite Hc, IH.
Qed.

Lemma commas_to_periods_digits (d : string) :
  forall_string is_digit d = true -> commas_to_periods d = d.
Proof. apply map_string_id, digit_not_comma. Qed.

Lemma remove_periods_all_digits (d : string) :
  forall_string is_digit d = true -> remove_periods d = d.
Proof.
  intros H. apply filter_string_all. revert H.
  apply forall_string_impl, digit_not_period.
Qed.

(** X18.  Periods group thousands and a comma starts the decimals, as
    in ["100.000,00"]: when the digits, commas and periods of the
    input are groups of digits and periods (with a digit among them),
    then a comma, then digits, the amount is the number whose digits
    are those of the groups and whose decimals are the digits after
    the comma; with no comma and no decimals it is the integer the
    groups spell. *)
Theorem parseCurrency_grouped (s w d : string) :
  forall_string digit_or_period w = true ->
  remove_periods w <> "" ->
  forall_string is_digit d = true ->
  (keep_numeric s = w ++ String "," d ->
   amount (parseCurrency s) =
   number_value false (digits_value 0 (remove_periods w ++ d))
                (- Z.of_nat (String.length d))) /\
  (keep_numeric s = w ->
   amount (parseCurrency s) =
   number_value false (digits_value 0 (remove_periods w)) 0).
Proof.
  intros Hw Hne Hd. pose proof (remove_periods_digits w Hw) as Hr.
  split; intros Hs; rewrite amount_of_normalized; unfold normalized; rewrite Hs.
  - unfold remove_periods at 1. rewrite filter_string_app.
    fold (remove_periods w). simpl filter_string. fold (remove_periods d).
    rewrite (remove_periods_all_digits d Hd).
    unfold commas_to_periods. rewrite map_string_app.
    fold (commas_to_periods (remove_periods w)). simpl map_string.
    fold (commas_to_periods d).
    rewrite (commas_to_periods_digits _ Hr), (commas_to_periods_digits d Hd).
    rewrite (parseFloat_decimal _ _ Hne Hr Hd).
    apply or_zero_nonneg_id, number_value_nonneg.
  - rewrite (commas_to_periods_digits _ Hr), (parseFloat_integer _ Hne Hr).
    apply or_zero_nonneg_id, number_value_nonneg.
Qed.

Lemma parseCurrency_grouped_witness :
  amount (parseCurrency "Rp 100.000,00") = number_value false 10000000 (-2) /\
  amount (parseCurrency "1.000.000 IDR") = number_value false 1000000 0.
Proof.
  split.
  - exact (proj1 (parseCurrency_grouped "Rp 100.000,00" "100.000" "00"
                    eq_refl ltac:(discriminate) eq_refl) eq_refl).
  - exact (proj2 (parseCurrency_grouped "1.000.000 IDR" "1.000.000" ""
                    eq_refl ltac:(discriminate) eq_refl) eq_refl).
Defined.

(** ** Runs while loading *)

(** X19.  The guard does not look at the loading flag: a run asked for
    while another is loading is not refused, and calls the client with
    the same prompt as it would otherwise. *)
Theorem generation_ignores_loading {H : Host} (st : App) (loading : bool) :
  calls (generateItinerary (set_isLoading loading st)) = calls (generateItinerary st).
Proof.
  unfold generateItinerary, enter.
  change (destination_given (set_isLoading loading st)) with (destination_given st).
  change (duration_given (set_isLoading loading st)) with (duration_given st).
  destruct (negb (destination_given st) || negb (duration_given st)); reflexivity.
Qed.

(** ** C10: the total budget once its input has been edited *)

Lemma resume_totalBudget {H : Host} (st : App) (response : JSError + option string) :
  totalBudget (resume st response) = totalBudget st.
Proof.
  destruct (resume_cases st response) as [[msg ->] | [parsed ->]]; reflexivity.
Qed.

(** Only an edit of the budget field writes the total budget, and what
    it writes is a number. *)
Lemma once_edited_budget (st : App) :
  once_edited st -> exists b, totalBudget st = Some b /\ nonneg b = true.
Proof.
  induction 1 as [st | st _ IH | h st st' _ IH He | h st st1 p _ IH He
                  | h st r _ IH | dest days focus st _ IH | v st _ IH
                  | it st _ IH].
  - exists (amount (parseCurrency (totalBudgetInput st))).
    split; [reflexivity | apply parseCurrency_amount_nonneg].
  - exact IH.
  - unfold enter in He.
    destruct (negb (destination_given st) || negb (duration_given st));
      [|discriminate].
    injection He as <-. exact IH.
  - destruct (@enter_inputs h st st1 p He) as (_ & _ & _ & _ & Hb).
    now rewrite Hb.
  - now rewrite resume_totalBudget.
  - exact IH.
  - exact IH.
  - exact IH.
Qed.

(** C10, as the code has it.  An edit of the total-budget input stores
    a number that is neither null nor NaN, the parsed amount of the
    input, which is 0 for an empty input and for one without a readable
    number.  Once the field has been edited the total budget stays
    such a number, whatever the component does next and whatever the
    user writes elsewhere; so every run of the budget aggregator from
    then on gives a null average only when the duration is null or not
    positive. *)
Theorem budget_known_once_edited :
  (forall st,
     totalBudget (onTotalBudgetInputChange st) =
       Some (amount (parseCurrency (totalBudgetInput st))) /\
     isNaN (amount (parseCurrency (totalBudgetInput st))) = false /\
     (totalBudgetInput st = "" ->
      totalBudget (onTotalBudgetInputChange st) = Some zero) /\
     (isNaN (parseFloat (normalized (totalBudgetInput st))) = true ->
      totalBudget (onTotalBudgetInputChange st) = Some zero) /\
     average_null_by_duration (onTotalBudgetInputChange st)) /\
  (forall st,
     once_edited st ->
     (exists b, totalBudget st = Some b /\ isNaN b = false) /\
     average_null_by_duration (calculateSummary st)).
Proof.
  split.
  - intros st. destruct (budget_known_after_edit st) as (H1 & H2 & H3 & H4 & H5).
    repeat split; assumption.
  - intros st Hst. destruct (once_edited_budget st Hst) as (b & Hb & Hn).
    split; [exists b; auto using nonneg_not_NaN|].
    unfold average_null_by_duration. rewrite calculateSummary_average, Hb.
    change (duration (calculateSummary st)) with (duration st).
    destruct (duration st) as [d|]; [|now left].
    destruct (ltb zero d) eqn:Hd; [discriminate|].
    intros _. right. now exists d.
Qed.

Lemma failed_after_edit_reached : once_edited failed_after_edit.
Proof.
  unfold failed_after_edit, generateItinerary.
  destruct (@enter failing_host (onTotalBudgetInputChange trip)) as [st'|st1 p] eqn:He.
  - exact (then_stays_idle failing_host _ _ (edited trip) He).
  - exact (then_resume failing_host _ _
             (then_generating failing_host _ _ _ (edited trip) He)).
Qed.

Lemma budget_known_once_edited_witness :
  once_edited failed_after_edit /\
  (exists b, totalBudget failed_after_edit = Some b /\ isNaN b = false) /\
  average_null_by_duration (calculateSummary failed_after_edit).
Proof.
  split; [exact failed_after_edit_reached|].
  exact (proj2 budget_known_once_edited failed_after_edit failed_after_edit_reached).
Defined.

(** C10, as stated, at the trip with the budget text ["1.000 JPY"] and
    a duration of 3 days, after an edit of the budget field and a run
    of the generation that failed: the total budget is 1000, the
    duration is positive, and the average is null, as the run cleared
    it and nothing computed it again. *)
Lemma budget_edit_then_failed_run_counterexample :
  once_edited failed_after_edit /\
  totalBudget failed_after_edit = Some (of_Z 1000) /\
  duration failed_after_edit = Some (of_Z 3) /\
  ltb zero (of_Z 3) = true /\
  averageDailyBudgetRemaining failed_after_edit = None /\
  ~ average_null_by_duration failed_after_edit.
Proof.
  split; [exact failed_after_edit_reached|].
  repeat split.
  intros Hc. destruct (Hc eq_refl) as [Hd | (d & Hd & Hl)].
  - discriminate Hd.
  - injection Hd as <-. discriminate Hl.
Qed.
